(** * Bear Knowledge: transcript collector and summarizer

    A shallow embedding of [scripts/collector.js] and [scripts/summarizer.js]
    and the properties of the transcript codec, the signal classifier, the
    summary renderer, the date window and the two [main] loops.

    JavaScript strings are sequences of UTF-16 code units; they are modelled
    as [list N].  All the non-ASCII characters the scripts mention (the em
    dash and the two check marks) are single code units.  Files are whole
    texts in maps from names to contents; console output is not modelled. *)

From Stdlib Require Import ZArith NArith Ascii String DecimalString List Bool Lia.
From stdpp Require Import gmap list fin_maps.

Local Open Scope N_scope.

(** ** JavaScript strings *)

Module Js.

Definition jsstring := list N.

(** An ASCII literal as a sequence of code units. *)
Definition u (s : string) : jsstring :=
  List.map N_of_ascii (list_ascii_of_string s).

Definition LF : N := 10.
Definition CR : N := 13.
Definition LS : N := 8232.      (* U+2028 *)
Definition PS : N := 8233.      (* U+2029 *)
Definition emdash : N := 8212.  (* U+2014 *)
Definition check_mark : N := 10003.        (* U+2713 *)
Definition white_check_mark : N := 9989.   (* U+2705 *)

(** [s.startsWith(p)] *)
Fixpoint startsWith (p s : jsstring) : bool :=
  match p, s with
  | [], _ => true
  | _ :: _, [] => false
  | a :: p', b :: s' => (a =? b) && startsWith p' s'
  end.

(** The rest of [s] after the literal prefix [p], when [s] starts with it. *)
Fixpoint stripPrefix (p s : jsstring) : option jsstring :=
  match p, s with
  | [], _ => Some s
  | _ :: _, [] => None
  | a :: p', b :: s' => if a =? b then stripPrefix p' s' else None
  end.

(** [s.includes(p)] *)
Fixpoint includes (p s : jsstring) : bool :=
  startsWith p s ||
  match s with
  | [] => false
  | _ :: s' => includes p s'
  end.

(** [s.endsWith(p)] *)
Definition endsWith (p s : jsstring) : bool :=
  startsWith (rev p) (rev s).

(** [s.split(c)] for a one-character separator: never empty. *)
Fixpoint split (c : N) (s : jsstring) : list jsstring :=
  match s with
  | [] => [[]]
  | x :: s' =>
      if x =? c then [] :: split c s'
      else match split c s' with
           | [] => [[x]]
           | l :: ls => (x :: l) :: ls
           end
  end.

(** [lines.join(sep)] *)
Fixpoint join (sep : jsstring) (ls : list jsstring) : jsstring :=
  match ls with
  | [] => []
  | [l] => l
  | l :: ls' => l ++ sep ++ join sep ls'
  end.

(** [x.slice(b, e)] on strings and arrays alike: negative indices count from
    the end, both are clamped to the length. *)
Definition slice {A} (b e : Z) (l : list A) : list A :=
  let len := Z.of_nat (length l) in
  let from := if (b <? 0)%Z then Z.max (len + b) 0 else Z.min b len in
  let to := if (e <? 0)%Z then Z.max (len + e) 0 else Z.min e len in
  take (Z.to_nat (to - from)) (drop (Z.to_nat from) l).

(** [s.replace(p, r)] with a string pattern: the first occurrence only. *)
Fixpoint replace (p r s : jsstring) : jsstring :=
  match stripPrefix p s with
  | Some rest => r ++ rest
  | None => match s with
            | [] => []
            | x :: s' => x :: replace p r s'
            end
  end.

(** Decimal digits of a number, as [String(n)] prints a non-negative
    integer. *)
Definition digit (d : Z) : N := 48 + Z.to_N d.

Definition ofUint (n : N) : jsstring :=
  u (NilZero.string_of_uint (N.to_uint n)).

(** Zero-padded fields of the date formats. *)
Definition pad2 (n : Z) : jsstring :=
  [digit (n / 10 mod 10); digit (n mod 10)]%Z.
Definition pad3 (n : Z) : jsstring :=
  [digit (n / 100 mod 10); digit (n / 10 mod 10); digit (n mod 10)]%Z.
Definition pad4 (n : Z) : jsstring :=
  (digit (n / 1000 mod 10) :: pad3 n)%Z.
Definition pad6 (n : Z) : jsstring :=
  ([digit (n / 100000 mod 10); digit (n / 10000 mod 10)] ++ pad4 n)%Z.

Definition isDigit (c : N) : bool := (48 <=? c) && (c <=? 57).

(** Line terminators: what [.] in a regular expression refuses. *)
Definition isLineTerminator (c : N) : bool :=
  (c =? LF) || (c =? CR) || (c =? LS) || (c =? PS).

(** [\s] of a regular expression. *)
Definition isSpace (c : N) : bool :=
  ((9 <=? c) && (c <=? 13)) || (c =? 32) || (c =? 160) || (c =? 5760) ||
  ((8192 <=? c) && (c <=? 8202)) || (c =? LS) || (c =? PS) ||
  (c =? 8239) || (c =? 8287) || (c =? 12288) || (c =? 65279).

(** A string in a boolean position: empty is falsy. *)
Definition truthy (s : jsstring) : bool :=
  match s with [] => false | _ => true end.

End Js.

Import Js.

(** ** The JavaScript [Date] object

    A [Date] holds a time value: milliseconds since 1970-01-01T00:00:00Z.
    Local time goes through the host's time zone as in ECMAScript: the zone
    gives the offset in force at an instant and the offset a local time is
    read with, so a daylight-saving transition moves the two apart.
    Civil dates follow ECMAScript's proleptic Gregorian calendar. *)

Module JsDate.

Local Open Scope Z_scope.

Definition msPerDay : Z := 86400000.
Definition msPerHour : Z := 3600000.
Definition msPerMinute : Z := 60000.
Definition msPerSecond : Z := 1000.

Definition Day (t : Z) : Z := t / msPerDay.
Definition TimeWithinDay (t : Z) : Z := t mod msPerDay.

Definition HourFromTime (t : Z) : Z := (t / msPerHour) mod 24.
Definition MinFromTime (t : Z) : Z := (t / msPerMinute) mod 60.
Definition SecFromTime (t : Z) : Z := (t / msPerSecond) mod 60.
Definition msFromTime (t : Z) : Z := t mod msPerSecond.

Definition MakeTime (h m s ms : Z) : Z :=
  h * msPerHour + m * msPerMinute + s * msPerSecond + ms.

(** Year, month (1..12) and day of the month of a day number. *)
Definition civilFromDays (z : Z) : Z * Z * Z :=
  let z := z + 719468 in
  let era := z / 146097 in
  let doe := z - era * 146097 in
  let yoe := (doe - doe / 1460 + doe / 36524 - doe / 146096) / 365 in
  let doy := doe - (365 * yoe + yoe / 4 - yoe / 100) in
  let mp := (5 * doy + 2) / 153 in
  let d := doy - (153 * mp + 2) / 5 + 1 in
  let m := if mp <? 10 then mp + 3 else mp - 9 in
  let y := yoe + era * 400 in
  (if m <=? 2 then y + 1 else y, m, d).

(** The day number of a civil date; [d] need not be a day of that month
    ([MakeDay] counts on from the first of the month). *)
Definition MakeDay (y m d : Z) : Z :=
  let y := if m <=? 2 then y - 1 else y in
  let era := y / 400 in
  let yoe := y - era * 400 in
  let doy := (153 * (if 2 <? m then m - 3 else m + 9) + 2) / 5 in
  let doe := yoe * 365 + yoe / 4 - yoe / 100 + doy in
  era * 146097 + doe - 719468 + (d - 1).

Definition MakeDate (day time : Z) : Z := day * msPerDay + time.

Definition YearFromTime (t : Z) : Z := (civilFromDays (Day t)).1.1.
Definition MonthFromTime (t : Z) : Z := (civilFromDays (Day t)).1.2.
Definition DateFromTime (t : Z) : Z := (civilFromDays (Day t)).2.

(** The host's time zone, as ECMAScript's [LocalTZA(t, isUTC)]: the offset
    of local time from UTC in milliseconds, east positive. With [isUTC] it
    is the offset in force at the instant [t]; without, [t] is a local time
    value and the result is the offset it is read with. A local time that a
    transition skips or repeats is read with the offset from before the
    transition. *)
Definition Zone : Type := Z -> bool -> Z.

Section Local.

Variable LocalTZA : Zone.

Definition LocalTime (t : Z) : Z := t + LocalTZA t true.
Definition UTC (t : Z) : Z := t - LocalTZA t false.

(** [d.setHours(h, m, s, ms)] *)
Definition setHours (h m s ms : Z) (t : Z) : Z :=
  UTC (MakeDate (Day (LocalTime t)) (MakeTime h m s ms)).

(** [d.getDate()] *)
Definition getDate (t : Z) : Z := DateFromTime (LocalTime t).

(** [d.setDate(dt)] *)
Definition setDate (dt : Z) (t : Z) : Z :=
  let l := LocalTime t in
  UTC (MakeDate (MakeDay (YearFromTime l) (MonthFromTime l) dt)
                (TimeWithinDay l)).

(** [d.toLocaleTimeString('pl-PL', { hour: '2-digit', minute: '2-digit' })]:
    the Polish format is 24-hour [HH:MM]. *)
Definition toLocaleTimeString (t : Z) : jsstring :=
  let l := LocalTime t in
  pad2 (HourFromTime l) ++ u ":" ++ pad2 (MinFromTime l).
End Local.

(** The year of an ISO string: four digits, or a sign and six digits
    outside 0..9999. *)
Definition isoYear (y : Z) : jsstring :=
  if (0 <=? y) && (y <=? 9999) then pad4 y
  else if y <? 0 then u "-" ++ pad6 (- y)
  else u "+" ++ pad6 y.

(** [d.toISOString()]: always UTC. *)
Definition toISOString (t : Z) : jsstring :=
  isoYear (YearFromTime t) ++ u "-" ++ pad2 (MonthFromTime t) ++ u "-" ++
  pad2 (DateFromTime t) ++ u "T" ++ pad2 (HourFromTime t) ++ u ":" ++
  pad2 (MinFromTime t) ++ u ":" ++ pad2 (SecFromTime t) ++ u "." ++
  pad3 (msFromTime t) ++ u "Z".

(** [s.split('T')[0]] *)
Definition datePart (s : jsstring) : jsstring := hd [] (split 84%N s).

End JsDate.

Import JsDate.

(** ** The host environment

    What the scripts read without being passed it: the clock ([new Date()])
    and the time zone of the machine they run on. *)

Record Env := {
  clock : Z;       (* the time value [new Date()] returns *)
  zone : Zone      (* the time zone of the host *)
}.

(** ** collector.js *)

Definition CHANNELS : list jsstring :=
  [u "general"; u "coding"; u "bear-agency"; u "bears-only"; u "beramonium";
   u "consciousness"].

Record DateRange := {
  after : jsstring;
  before : jsstring;
  dateStr : jsstring
}.

(** [getDateRange()]: yesterday 3:45 AM to today 3:00 AM. *)
Definition getDateRange (env : Env) : DateRange :=
  let tz := zone env in
  let now := clock env in
  let today3AM := setHours tz 3 0 0 0 now in
  let yesterday345PM := today3AM in
  let yesterday345PM := setDate tz (getDate tz yesterday345PM - 1) yesterday345PM in
  let yesterday345PM := setHours tz 3 45 0 0 yesterday345PM in
  {| after := toISOString yesterday345PM;
     before := toISOString today3AM;
     dateStr := datePart (toISOString yesterday345PM) |}.

(** A message object as [formatTranscript] reads it: any of the properties
    may be missing ([None] is [undefined]; a [createdAt] that is missing or
    does not parse gives an invalid date). *)
Record RawMsg := {
  createdAt : option Z;
  displayName : option jsstring;
  userId : option jsstring;
  rawContent : option jsstring
}.

(** [a || b] on string properties. *)
Definition orElse (a b : option jsstring) : option jsstring :=
  match a with
  | Some s => if truthy s then a else b
  | None => b
  end.

(** A value inside a template literal. *)
Definition interpolate (a : option jsstring) : jsstring :=
  match a with
  | Some s => s
  | None => u "undefined"
  end.

Definition sepDash : jsstring := u " " ++ [emdash] ++ u " ".

Definition msgTime (env : Env) (msg : RawMsg) : jsstring :=
  match createdAt msg with
  | Some t => toLocaleTimeString (zone env) t
  | None => u "Invalid Date"
  end.

Definition msgAuthor (msg : RawMsg) : jsstring :=
  interpolate (orElse (displayName msg) (userId msg)).

Definition msgContent (msg : RawMsg) : jsstring :=
  match orElse (rawContent msg) (Some []) with
  | Some s => s
  | None => []
  end.

Definition push {A} (l : list A) (x : A) : list A := l ++ [x].

(** [formatTranscript(messages, channel)] *)
Definition formatTranscript (env : Env) (messages : list RawMsg)
    (channel : jsstring) : jsstring :=
  let lines :=
    [u "# " ++ channel ++ sepDash ++ datePart (toISOString (clock env)); []] in
  let lines :=
    fold_left
      (fun lines msg =>
         let time := msgTime env msg in
         let author := msgAuthor msg in
         let content := msgContent msg in
         let lines := push lines (u "### " ++ time ++ sepDash ++ author) in
         let lines := push lines [] in
         let lines := push lines content in
         push lines [])
      messages lines in
  join [LF] lines.

(** The HTTP layer is the outside world: what a GET of a URL gives back. *)
Inductive Response :=
  | RespArray (msgs : list RawMsg)                 (* a JSON array *)
  | RespObject (messages : option (list RawMsg)).  (* [{ messages: [...] }] *)

Inductive HttpOutcome :=
  | TransportError
  | HttpReply (statusCode : Z) (body : option Response). (* [None]: not JSON *)

Inductive Fetched :=
  | Rejected
  | Resolved (response : Response).

(** [encodeURIComponent] on ASCII text: unreserved characters stay, the
    others become [%XX]. *)
Definition hexDigit (n : N) : N := if n <? 10 then 48 + n else 55 + n.

Definition unreserved (c : N) : bool :=
  ((65 <=? c) && (c <=? 90)) || ((97 <=? c) && (c <=? 122)) || isDigit c ||
  existsb (N.eqb c) (u "-_.!~*'()").

Definition encodeURIComponent (s : jsstring) : jsstring :=
  flat_map (fun c => if unreserved c then [c]
                     else [37; hexDigit (c / 16); hexDigit (c mod 16)]) s.

Definition API_BASE : jsstring := u "https://chat.roffhenryaidev.cc/api".

Section Collector.
Variable httpGet : jsstring -> HttpOutcome.

(** [fetchMessages(channelId, after, before)] *)
Definition fetchMessages (channelId after before : jsstring) : Fetched :=
  let url := API_BASE ++ u "/channels/" ++ channelId ++
             u "/messages?after_date=" ++ encodeURIComponent (datePart after) ++
             u "&before_date=" ++ encodeURIComponent (datePart before) ++
             u "&limit=500" in
  match httpGet url with
  | TransportError => Rejected
  | HttpReply statusCode body =>
      if (statusCode =? 200)%Z then
        match body with
        | Some r => Resolved r
        | None => Rejected
        end
      else Rejected
  end.

(** [response.messages || response]: [None] is an object without a
    [messages] array, which has no length and cannot be iterated. *)
Definition responseMessages (response : Response) : option (list RawMsg) :=
  match response with
  | RespArray msgs => Some msgs
  | RespObject (Some msgs) => Some msgs
  | RespObject None => None
  end.

(** One round of the loop of [main]: the files of the output directory
    before and after the channel is handled.  An exception ends the round
    with the directory unchanged. *)
Definition collectChannel (env : Env) (after before : jsstring)
    (outputDir : gmap jsstring jsstring) (channel : jsstring)
    : gmap jsstring jsstring :=
  match fetchMessages channel after before with
  | Rejected => outputDir
  | Resolved response =>
      match responseMessages response with
      | None => outputDir
      | Some messages =>
          if (length messages =? 0)%nat then outputDir
          else
            let transcript := formatTranscript env messages channel in
            let outputPath := channel ++ u ".md" in
            <[outputPath := transcript]> outputDir
      end
  end.

(** [main()] of the collector, on the tree below [OUTPUT_DIR]: a map from
    day directories to their files. *)
Definition collectorMain (env : Env)
    (root : gmap jsstring (gmap jsstring jsstring))
    : gmap jsstring (gmap jsstring jsstring) :=
  let r := getDateRange env in
  let outputDir := default ∅ (root !! dateStr r) in
  <[dateStr r :=
      fold_left (collectChannel env (after r) (before r)) CHANNELS outputDir]>
    root.
End Collector.

(** ** summarizer.js *)

(** [getTargetDate()] *)
Definition getTargetDate (argv2 : option jsstring) (env : Env) : jsstring :=
  match orElse argv2 None with
  | Some d => d
  | None => datePart (toISOString (clock env))
  end.

Record Message := {
  time : jsstring;
  author : jsstring;
  content : jsstring
}.

(** [line.match(/^### (\d{2}:\d{2}) — (.+)$/)]: the two groups. *)
Definition headerMatch (line : jsstring) : option (jsstring * jsstring) :=
  match stripPrefix (u "### ") line with
  | Some (d1 :: d2 :: c :: d3 :: d4 :: rest) =>
      if isDigit d1 && isDigit d2 && (c =? 58) && isDigit d3 && isDigit d4 then
        match stripPrefix sepDash rest with
        | Some who =>
            if truthy who && forallb (fun x => negb (isLineTerminator x)) who
            then Some ([d1; d2; c; d3; d4], who)
            else None
        | None => None
        end
      else None
  | _ => None
  end.

(** The body of the loop of [parseTranscript], on the pair of [messages]
    and [currentMsg]. *)
Definition parseLine (st : list Message * option Message) (line : jsstring)
    : list Message * option Message :=
  let '(messages, currentMsg) := st in
  match headerMatch line with
  | Some (t, who) =>
      let messages :=
        match currentMsg with
        | Some m => push messages m
        | None => messages
        end in
      (messages, Some {| time := t; author := who; content := [] |})
  | None =>
      match currentMsg with
      | Some m =>
          if negb (startsWith (u "# ") line) then
            (messages,
             Some {| time := time m; author := author m;
                     content := content m ++
                                (if truthy (content m) then [LF] else []) ++
                                line |})
          else st
      | None => st
      end
  end.

Definition parseLoop (content : jsstring) : list Message * option Message :=
  fold_left parseLine (split LF content) ([], None).

(** [parseTranscript(content)] *)
Definition parseTranscript (content : jsstring) : list Message :=
  let '(messages, currentMsg) := parseLoop content in
  match currentMsg with
  | Some m => push messages m
  | None => messages
  end.

Record Signal := {
  who : jsstring;
  what : jsstring
}.

Module Link.

Record t := {
  who : jsstring;
  url : jsstring
}.

End Link.

Record Summary := {
  decisions : list Signal;
  actions : list Signal;
  links : list Link.t;
  questions : list Signal
}.

(** [[^\s\)]+]: the longest run without white space or closing
    parenthesis. *)
Fixpoint urlBody (s : jsstring) : jsstring :=
  match s with
  | [] => []
  | c :: s' => if isSpace c || (c =? 41) then [] else c :: urlBody s'
  end.

(** [/https?:\/\/[^\s\)]+/] tried at the start of [s]: the text matched. *)
Definition urlAt (s : jsstring) : option jsstring :=
  match stripPrefix (u "http") s with
  | None => None
  | Some r =>
      let scheme :=
        match stripPrefix (u "s://") r with
        | Some r' => Some (u "https://", r')
        | None =>
            match stripPrefix (u "://") r with
            | Some r' => Some (u "http://", r')
            | None => None
            end
        end in
      match scheme with
      | Some (pre, r') =>
          if truthy (urlBody r') then Some (pre ++ urlBody r') else None
      | None => None
      end
  end.

(** [s.match(/.../g)]: the matches from left to right, each search starting
    where the match before it ended; [skip] counts the characters of the
    current match still to pass. *)
Fixpoint matchUrls (skip : nat) (s : jsstring) : list jsstring :=
  match s with
  | [] => []
  | _ :: s' =>
      match skip with
      | S k => matchUrls k s'
      | O =>
          match urlAt s with
          | Some m => m :: matchUrls (length m - 1) s'
          | None => matchUrls 0 s'
          end
      end
  end.

Section Classifier.

(** [toLowerCase] follows the Unicode tables of the runtime.  ASCII is
    written out; what a code unit outside ASCII becomes depends on the
    table and on its context (surrogate pairs, the final sigma), so it is
    taken from [lowerNonAscii whole i]: the lower case of the code unit at
    index [i] of the string [whole]. *)
Variable lowerNonAscii : jsstring -> nat -> jsstring.

Definition lowerAscii (c : N) : N :=
  if (65 <=? c) && (c <=? 90) then c + 32 else c.

Fixpoint lowerFrom (whole : jsstring) (i : nat) (s : jsstring) : jsstring :=
  match s with
  | [] => []
  | c :: s' =>
      (if c <? 128 then [lowerAscii c] else lowerNonAscii whole i) ++
      lowerFrom whole (S i) s'
  end.

Definition toLowerCase (s : jsstring) : jsstring := lowerFrom s 0 s.

Definition isDecision (content : jsstring) : bool :=
  includes (u "decyzj") content || includes (u "decided") content ||
  includes (u "let's ") content || includes (u "we'll ") content ||
  includes (u "so:") content || includes (u "plan:") content ||
  includes [check_mark] content || includes [white_check_mark] content.

Definition isAction (content : jsstring) : bool :=
  includes (u "todo") content || includes (u "task") content ||
  includes (u "action") content || includes (u "i'll ") content ||
  includes (u "will ") content || includes (u "should ") content.

Definition isQuestion (content : jsstring) : bool :=
  includes (u "?") content && negb (includes (u "http") content).

(** The body of the loop of [summarizeChannel]. *)
Definition summarizeMessage (s : Summary) (msg : Message) : Summary :=
  let content_ := toLowerCase (content msg) in
  let fullContent := content msg in
  let decisions :=
    if isDecision content_
    then push (decisions s)
              {| who := author msg; what := slice 0 200 fullContent |}
    else decisions s in
  let actions :=
    if isAction content_
    then push (actions s)
              {| who := author msg; what := slice 0 200 fullContent |}
    else actions s in
  let urlMatch := matchUrls 0 fullContent in
  let links :=
    fold_left (fun ls url => push ls {| Link.who := author msg; Link.url := url |})
              urlMatch (links s) in
  let questions :=
    if isQuestion content_
    then push (questions s)
              {| who := author msg; what := slice 0 150 fullContent |}
    else questions s in
  {| decisions := decisions; actions := actions; links := links;
     questions := questions |}.

(** [summarizeChannel(messages, channel)] *)
Definition summarizeChannel (messages : list Message) (channel : jsstring)
    : Summary :=
  fold_left summarizeMessage messages
    {| decisions := []; actions := []; links := []; questions := [] |}.
End Classifier.

(** The bullets of [formatSummary]: decisions and actions, links,
    questions. *)
Definition bulletSignal (d : Signal) : jsstring :=
  u "- **" ++ who d ++ u "**: " ++ slice 0 150 (what d) ++ u "...".

Definition bulletLink (l : Link.t) : jsstring :=
  u "- " ++ Link.url l ++ u " (" ++ Link.who l ++ u ")".

Definition bulletQuestion (q : Signal) : jsstring :=
  u "- **" ++ who q ++ u "**: " ++ what q ++ u "?".

(** One section of [formatSummary]: nothing for an empty category, else the
    title, a blank line, a bullet for each of [entries.slice(0, limit)] and
    a blank line, pushed onto [lines]. *)
Definition pushSection {A} (title : jsstring) (limit : Z)
    (bullet : A -> jsstring) (entries : list A) (lines : list jsstring)
    : list jsstring :=
  if (0 <? length entries)%nat then
    let lines := push lines title in
    let lines := push lines [] in
    let lines :=
      fold_left (fun lines e => push lines (bullet e))
                (slice 0 limit entries) lines in
    push lines []
  else lines.

(** The lines [formatSummary] joins. *)
Definition summaryLines (channel : jsstring) (messages : list Message)
    (summary : Summary) : list jsstring :=
  let lines :=
    [u "# " ++ channel ++ sepDash ++ u "Summary";
     [];
     u "**Messages:** " ++ ofUint (N.of_nat (length messages));
     [];
     u "---";
     []] in
  let lines :=
    pushSection (u "## Key Decisions") 5 bulletSignal (decisions summary) lines in
  let lines :=
    pushSection (u "## Action Items") 5 bulletSignal (actions summary) lines in
  let lines :=
    pushSection (u "## Links Shared") 10 bulletLink (links summary) lines in
  pushSection (u "## Open Questions") 5 bulletQuestion (questions summary) lines.

(** [formatSummary(channel, messages, summary)] *)
Definition formatSummary (channel : jsstring) (messages : list Message)
    (summary : Summary) : jsstring :=
  join [LF] (summaryLines channel messages summary).

Section Summarizer.
Variable lowerNonAscii : jsstring -> nat -> jsstring.

(** One round of the loop of [main]: the summaries directory before and
    after the file is handled. *)
Definition summarizeFile (logsDir : gmap jsstring jsstring)
    (summariesDir : gmap jsstring jsstring) (file : jsstring)
    : gmap jsstring jsstring :=
  let channel := replace (u ".md") [] file in
  match logsDir !! file with
  | None => summariesDir      (* [readFileSync] throws *)
  | Some content =>
      let messages := parseTranscript content in
      if (length messages <? 3)%nat then summariesDir
      else
        let summary := summarizeChannel lowerNonAscii messages channel in
        let formatted := formatSummary channel messages summary in
        <[file := formatted]> summariesDir
  end.

(** [fs.readdirSync(logsDir)] *)
Definition readdirSync (dir : gmap jsstring jsstring) : list jsstring :=
  (map_to_list dir).*1.

(** [main()] of the summarizer, on the trees below [LOGS_DIR] and
    [SUMMARIES_DIR]; the result is the tree below [SUMMARIES_DIR]. The
    trees hold the day directories by name, so [path.join(LOGS_DIR, dateStr)]
    is the directory called [dateStr]: this is the run for a target day that
    is a plain name, as the default date and the labels of the collector
    are. An argument with a separator or a dot segment, which [path.join]
    resolves to a directory elsewhere, is not covered. *)
Definition summarizerMain (argv2 : option jsstring) (env : Env)
    (logs summaries : gmap jsstring (gmap jsstring jsstring))
    : gmap jsstring (gmap jsstring jsstring) :=
  let dateStr := getTargetDate argv2 env in
  match logs !! dateStr with
  | None => summaries
  | Some logsDir =>
      let summariesDir := default ∅ (summaries !! dateStr) in
      let files := List.filter (endsWith (u ".md")) (readdirSync logsDir) in
      <[dateStr := fold_left (summarizeFile logsDir) files summariesDir]>
        summaries
  end.
End Summarizer.

(** ** Vocabulary of the properties *)

(** The message a raw record stands for: the three fields that survive
    encoding. *)
Definition fields (env : Env) (msg : RawMsg) : Message :=
  {| time := msgTime env msg; author := msgAuthor msg;
     content := msgContent msg |}.

(** What the decoder gives back for it: the blank line that closes a block
    is absorbed into a non-empty content. *)
Definition decoded (env : Env) (msg : RawMsg) : Message :=
  {| time := msgTime env msg; author := msgAuthor msg;
     content := if truthy (msgContent msg) then msgContent msg ++ [LF]
                else [] |}.

(** A parsed message seen as [formatTranscript] reads it: of the properties
    it looks up, only [content] is there. *)
Definition viewRaw (m : Message) : RawMsg :=
  {| createdAt := None; displayName := None; userId := None;
     rawContent := Some (content m) |}.

(** Single-line content that begins with neither ["### "] nor ["# "]. *)
Definition plainContent (c : jsstring) : bool :=
  forallb (fun x => negb (x =? LF)) c &&
  negb (startsWith (u "### ") c) && negb (startsWith (u "# ") c).

(** A record whose heading can be read back: a valid [createdAt] and a
    non-empty author without line terminators. *)
Definition headable (msg : RawMsg) : bool :=
  match createdAt msg with Some _ => true | None => false end &&
  truthy (msgAuthor msg) &&
  forallb (fun x => negb (isLineTerminator x)) (msgAuthor msg).

(** A message the codec is meant for. *)
Definition wellFormed (msg : RawMsg) : bool :=
  headable msg && plainContent (msgContent msg).

(** Text without newline. *)
Definition singleLine (s : jsstring) : bool :=
  forallb (fun x => negb (x =? LF)) s.

(** The messages and the open message of the decoder, in order. *)
Definition flush (st : list Message * option Message) : list Message :=
  st.1 ++ option_list st.2.

(** Text made of characters from [+] on: digits, letters and the
    punctuation of dates; no control character. *)
Definition printable (s : jsstring) : Prop := Forall (fun x => 43 <= x) s.

(** The four lines [formatTranscript] pushes for a message. *)
Definition block (env : Env) (msg : RawMsg) : list jsstring :=
  [u "### " ++ msgTime env msg ++ sepDash ++ msgAuthor msg; [];
   msgContent msg; []].

(** The first line of a transcript. *)
Definition titleLine (env : Env) (channel : jsstring) : jsstring :=
  u "# " ++ channel ++ sepDash ++ datePart (toISOString (clock env)).

(** The block [formatTranscript] writes for a parsed message. *)
Definition reBlock (env : Env) (msg : RawMsg) : list jsstring :=
  [u "### Invalid Date" ++ sepDash ++ u "undefined"; [];
   content (decoded env msg); []].

(** A zone that keeps one offset, [minutes] east of UTC, all year. *)
Definition fixedZone (minutes : Z) : Zone :=
  fun _ _ => (minutes * msPerMinute)%Z.

(** A zone with daylight-saving time: offset [std] until the instant
    [spring], [dst] from there until the instant [autumn], [std] again
    after it. The local times the change in spring skips and those the
    change in autumn repeats are read with the offset from before the
    change. *)
Definition dstZone (std dst spring autumn : Z) : Zone :=
  fun t isUTC =>
    if isUTC then
      if (spring <=? t)%Z && (t <? autumn)%Z then dst else std
    else
      if (spring + dst <=? t)%Z && (t <? autumn + dst)%Z then dst else std.

(** The local time value [x] is read back on its own day: false only where
    a transition skips local time across midnight. *)
Definition keepsDay (z : Zone) (x : Z) : bool :=
  (Day (LocalTime z (UTC z x)) =? Day x)%Z.

(** The instant of a wall-clock time of a host [tz] minutes east of UTC. *)
Definition localInstant (tz y m d hh mm : Z) : Z :=
  UTC (fixedZone tz) (MakeDate (MakeDay y m d) (MakeTime hh mm 0 0)).

(** The calendar date of an instant, in UTC. *)
Definition isoDate (t : Z) : jsstring :=
  isoYear (YearFromTime t) ++ u "-" ++ pad2 (MonthFromTime t) ++ u "-" ++
  pad2 (DateFromTime t).

(** [s] starts with [p], ASCII letters compared without case. *)
Fixpoint startsWithNoCase (p s : jsstring) : bool :=
  match p, s with
  | [], _ => true
  | _ :: _, [] => false
  | a :: p', b :: s' => (lowerAscii a =? lowerAscii b) && startsWithNoCase p' s'
  end.

(** [s] contains [p], ASCII letters compared without case. *)
Fixpoint includesNoCase (p s : jsstring) : bool :=
  startsWithNoCase p s ||
  match s with
  | [] => false
  | _ :: s' => includesNoCase p s'
  end.

(** What the classifier needs of the Unicode table: the lower case of a
    non-ASCII code unit is not empty and holds none of [?], [h], [t], [p]. *)
Definition lowerTableOk (lowerNonAscii : jsstring -> nat -> jsstring) : Prop :=
  forall (whole : jsstring) (i : nat) (c : N),
    whole !! i = Some c -> 128 <= c ->
    lowerNonAscii whole i <> [] /\
    forall d, In d (lowerNonAscii whole i) ->
              d <> 63 /\ d <> 104 /\ d <> 116 /\ d <> 112.

(** A table that leaves the code units outside ASCII as they are. *)
Definition keepNonAscii (whole : jsstring) (i : nat) : jsstring :=
  match whole !! i with
  | Some c => [c]
  | None => []
  end.

(** The entries the classifier records for a message. *)
Definition questionOf (m : Message) : Signal :=
  {| who := author m; what := slice 0 150 (content m) |}.

Definition excerptOf (m : Message) : Signal :=
  {| who := author m; what := slice 0 200 (content m) |}.

Definition linksOf (m : Message) : list Link.t :=
  List.map (fun url => {| Link.who := author m; Link.url := url |})
           (matchUrls 0 (content m)).

(** The lines of one section of a summary, given its bullets. *)
Definition sectionLines (title : jsstring) (bullets : list jsstring)
    : list jsstring :=
  match bullets with
  | [] => []
  | _ => title :: [] :: bullets ++ [[]]
  end.

(** The six lines every summary starts with. *)
Definition preambleLines (channel : jsstring) (messages : list Message)
    : list jsstring :=
  [u "# " ++ channel ++ sepDash ++ u "Summary"; [];
   u "**Messages:** " ++ ofUint (N.of_nat (length messages)); [];
   u "---"; []].

(** A decision or action bullet, from the message it was extracted from. *)
Definition renderExcerpt (m : Message) : jsstring :=
  u "- **" ++ author m ++ u "**: " ++ take 150 (take 200 (content m)) ++ u "...".

(** The content of a file of a day directory, if it is there. *)
Definition readFile (root : gmap jsstring (gmap jsstring jsstring))
    (day file : jsstring) : option jsstring :=
  match root !! day with
  | Some dir => dir !! file
  | None => None
  end.

(** A character of a needle that is its own lower case and that no
    non-ASCII character lowers to. *)
Definition safe (lowerNonAscii : jsstring -> nat -> jsstring) (a : N) : Prop :=
  a < 128 /\ lowerAscii a = a /\
  forall (whole : jsstring) (i : nat) (c : N),
    whole !! i = Some c -> 128 <= c -> ~ In a (lowerNonAscii whole i).

(** What the loop of the summarizer leaves in the place of the summary of
    [file]. *)
Definition summaryOf (lowerNonAscii : jsstring -> nat -> jsstring) (file content : jsstring)
    (old : option jsstring) : option jsstring :=
  let channel := replace (u ".md") [] file in
  let messages := parseTranscript content in
  if (length messages <? 3)%nat then old
  else Some (formatSummary channel messages
               (summarizeChannel lowerNonAscii messages channel)).

(** ** Vocabulary of the further properties *)

(** A line that can sit in a content: not a heading, not a level-1 title. *)
Definition bodyLine (l : jsstring) : bool :=
  match headerMatch l with Some _ => false | None => true end &&
  negb (startsWith (u "# ") l).

(** [s] without its leading newlines. *)
Fixpoint dropNewlines (s : jsstring) : jsstring :=
  match s with
  | [] => []
  | c :: s' => if c =? LF then dropNewlines s' else s
  end.

(** What the decoder gives back for a content of any number of lines. *)
Definition decodedText (c : jsstring) : jsstring := dropNewlines (c ++ [LF]).

Definition decodedLines (env : Env) (msg : RawMsg) : Message :=
  {| time := msgTime env msg; author := msgAuthor msg;
     content := decodedText (msgContent msg) |}.

(** A record whose heading can be read back and whose content lines are
    body lines. *)
Definition readable (msg : RawMsg) : bool :=
  headable msg && forallb bodyLine (split LF (msgContent msg)).

(** One step of [currentMsg.content += ...]. *)
Definition grow (acc line : jsstring) : jsstring :=
  acc ++ (if truthy acc then [LF] else []) ++ line.

(** The lines of the block of a message, as the decoder meets them. *)
Definition blockLines (env : Env) (msg : RawMsg) : list jsstring :=
  (u "### " ++ msgTime env msg ++ sepDash ++ msgAuthor msg) :: [] ::
  split LF (msgContent msg) ++ [[]].

(** A line that is not a heading. *)
Definition notHeading (l : jsstring) : bool :=
  match headerMatch l with Some _ => false | None => true end.

(** A character a URL match can hold after the scheme. *)
Definition urlChar (c : N) : bool := negb (isSpace c || (c =? 41)).

(** A lower-case ASCII letter or another ASCII character without case. *)
Definition lowerCased (a : N) : bool := (a <? 128) && (lowerAscii a =? a).

(** A message without link. *)
Definition linkless (m : Message) : bool :=
  match linksOf m with [] => true | _ => false end.

(** What one round of the collector leaves in the place of the transcript
    of [channel]. *)
Definition transcriptOf (httpGet : jsstring -> HttpOutcome) (env : Env)
    (after before channel : jsstring) (old : option jsstring)
    : option jsstring :=
  match fetchMessages httpGet channel after before with
  | Rejected => old
  | Resolved response =>
      match responseMessages response with
      | None => old
      | Some messages =>
          if (length messages =? 0)%nat then old
          else Some (formatTranscript env messages channel)
      end
  end.

(** The channel a file name belongs to, among [channels]. *)
Definition channelOf (channels : list jsstring) (file : jsstring)
    : option jsstring :=
  List.find (fun ch => bool_decide (file = ch ++ u ".md")) channels.

(** What the summarizer leaves in the place of [file], given the logs
    directory of the day. *)
Definition summaryAt (lowerNonAscii : jsstring -> nat -> jsstring)
    (logsDir : gmap jsstring jsstring) (file : jsstring)
    (old : option jsstring) : option jsstring :=
  match logsDir !! file with
  | Some content =>
      if endsWith (u ".md") file
      then summaryOf lowerNonAscii file content old
      else old
  | None => old
  end.

(** Instants from 1970 up to the end of the year 9999. *)
Definition fourDigitYears (t : Z) : Prop := (0 <= t < 253402300800000)%Z.

(** The two boundaries of the window as instants: the time values of
    [today3AM] and [yesterday345PM] when [getDateRange] returns. *)
Definition beforeInstant (env : Env) : Z :=
  setHours (zone env) 3 0 0 0 (clock env).

Definition afterInstant (env : Env) : Z :=
  let today3AM := beforeInstant env in
  setHours (zone env) 3 45 0 0
    (setDate (zone env) (getDate (zone env) today3AM - 1)%Z today3AM).

(** The local times [getDateRange] passes through, 03:00 of the local day
    of the clock and the time of day that gives on the day before, are read
    back on their own day. *)
Definition keepsWindowDays (env : Env) : bool :=
  let z := zone env in
  let today := Day (LocalTime z (clock env)) in
  let today3AM := MakeDate today (MakeTime 3 0 0 0) in
  keepsDay z today3AM &&
  keepsDay z (MakeDate (today - 1)%Z
                (TimeWithinDay (LocalTime z (UTC z today3AM)))).

(** A directory name that [path.join] appends as it is: not empty, without
    separator or NUL, and neither [.] nor [..]. *)
Definition plainName (name : jsstring) : bool :=
  match name with
  | [] | [46] | [46; 46] => false
  | _ => forallb (fun c => negb (c =? 47) && negb (c =? 0)) name
  end.

(** The date text of a day number. *)
Definition dayText (day : Z) : jsstring := isoDate (MakeDate day 0).

(** What [fetchMessages] makes of the answer to its request. *)
Definition settle (o : HttpOutcome) : Fetched :=
  match o with
  | TransportError => Rejected
  | HttpReply statusCode body =>
      if (statusCode =? 200)%Z then
        match body with
        | Some r => Resolved r
        | None => Rejected
        end
      else Rejected
  end.

(** The URL the collector asks for the messages of a channel. *)
Definition requestUrl (channel afterDate beforeDate : jsstring) : jsstring :=
  API_BASE ++ u "/channels/" ++ channel ++ u "/messages?after_date=" ++
  afterDate ++ u "&before_date=" ++ beforeDate ++ u "&limit=500".

(** ** Inputs of the examples *)

(** The rules of Europe/Warsaw for 2024: UTC+1, and UTC+2 from 31 March
    01:00 UTC to 27 October 01:00 UTC. *)
Definition europeWarsaw : Zone :=
  dstZone (1 * msPerHour) (2 * msPerHour)
    (MakeDate (MakeDay 2024 3 31) (MakeTime 1 0 0 0))
    (MakeDate (MakeDay 2024 10 27) (MakeTime 1 0 0 0)).

(** The rules of America/New_York for 2024: UTC-5, and UTC-4 from 10 March
    07:00 UTC to 3 November 06:00 UTC. *)
Definition americaNewYork : Zone :=
  dstZone (-5 * msPerHour) (-4 * msPerHour)
    (MakeDate (MakeDay 2024 3 10) (MakeTime 7 0 0 0))
    (MakeDate (MakeDay 2024 11 3) (MakeTime 6 0 0 0)).

(** The rules of Asia/Tehran for 2022: UTC+03:30, and UTC+04:30 from
    22 March 00:00 to 22 September 00:00 local time. *)
Definition asiaTehran : Zone :=
  dstZone (3 * msPerHour + 30 * msPerMinute) (4 * msPerHour + 30 * msPerMinute)
    (MakeDate (MakeDay 2022 3 21) (MakeTime 20 30 0 0))
    (MakeDate (MakeDay 2022 9 21) (MakeTime 19 30 0 0)).

(** A host in Poland on 2024-03-15 at 10:00 UTC, 11:00 local time. *)
Definition warsaw : Env := {| clock := 1710496800000; zone := europeWarsaw |}.

(** The same host a day later. *)
Definition nextDay (env : Env) : Env :=
  {| clock := clock env + msPerDay; zone := zone env |}.

(** A host at 2024-03-15T10:00:00 local time in a zone [tz] minutes east of
    UTC all year. *)
Definition reference (tz : Z) : Env :=
  {| clock := localInstant tz 2024 3 15 10 0; zone := fixedZone tz |}.

(** A host in New York at noon UTC (08:00 local time) on 2024-03-10, the
    day the clocks went forward there. *)
Definition springForward : Env :=
  {| clock := MakeDate (MakeDay 2024 3 10) (MakeTime 12 0 0 0);
     zone := americaNewYork |}.

(** A host in Tehran at 08:00 UTC (12:30 local time) on 2022-03-22, the
    day the offset there went from +03:30 to +04:30. *)
Definition tehranChange : Env :=
  {| clock := MakeDate (MakeDay 2022 3 22) (MakeTime 8 0 0 0);
     zone := asiaTehran |}.

(** A message with a one-line content. *)
Definition bobSaysHi : RawMsg :=
  {| createdAt := Some 1710496800000%Z; displayName := Some (u "bob");
     userId := Some (u "u1"); rawContent := Some (u "hi") |}.

(** A record without author, and one without date. *)
Definition anonymous : RawMsg :=
  {| createdAt := Some 1710496800000%Z; displayName := Some [];
     userId := Some []; rawContent := Some (u "hi") |}.

Definition undated : RawMsg :=
  {| createdAt := None; displayName := Some (u "bob");
     userId := Some (u "u1"); rawContent := Some (u "hi") |}.

(** A message that quotes a heading. *)
Definition quoting : RawMsg :=
  {| createdAt := Some 1710496800000%Z; displayName := Some (u "bob");
     userId := Some (u "u1");
     rawContent := Some (u "### 09:30 " ++ [emdash] ++ u " eve") |}.

(** A message without display name. *)
Definition aliceAsks : RawMsg :=
  {| createdAt := Some 1710496860000%Z; displayName := None;
     userId := Some (u "alice"); rawContent := Some (u "should we ship?") |}.

(** Transcripts of two and of three messages. *)
Definition twoMessages : jsstring :=
  formatTranscript warsaw [bobSaysHi; aliceAsks] (u "general").

Definition threeMessages : jsstring :=
  formatTranscript warsaw [bobSaysHi; aliceAsks; bobSaysHi] (u "general").

(** A logs tree with one transcript, [general.md] of 2024-03-14. *)
Definition oneLog (text : jsstring) : gmap jsstring (gmap jsstring jsstring) :=
  {[ u "2024-03-14" := {[ u "general.md" := text ]} ]}.

(** Messages that match a decision keyword. *)
Definition decided (n : N) : Message :=
  {| time := u "10:00"; author := u "bob";
     content := u "we decided on option " ++ ofUint n |}.

Definition sevenDecisions : list Message :=
  List.map decided [1; 2; 3; 4; 5; 6; 7].

(** A message whose only question mark is in a URL. *)
Definition searchMsg : Message :=
  {| time := u "10:00"; author := u "bob";
     content := u "check https://x.com/search?q=1" |}.

(** An API that answers every request with an empty array. *)
Definition quietApi (url : jsstring) : HttpOutcome :=
  HttpReply 200 (Some (RespArray [])).

(** A message of several lines, the first one empty. *)
Definition twoLines : RawMsg :=
  {| createdAt := Some 1710496800000%Z; displayName := Some (u "bob");
     userId := Some (u "u1");
     rawContent := Some ([LF] ++ u "hi" ++ [LF; LF] ++ u "there") |}.

(** An API that answers every request with one message under [messages],
    one that answers with three messages, and one that is down. *)
Definition busyApi (url : jsstring) : HttpOutcome :=
  HttpReply 200 (Some (RespObject (Some [bobSaysHi]))).

Definition chattyApi (url : jsstring) : HttpOutcome :=
  HttpReply 200 (Some (RespArray [bobSaysHi; aliceAsks; twoLines])).

Definition deadApi (url : jsstring) : HttpOutcome := TransportError.

(** A heading line. *)
Definition bobHeading : jsstring := u "### 10:00 " ++ [emdash] ++ u " bob".

(** * Properties *)

(** ** The model on examples *)

Example split_ex :
  split LF (u "a" ++ [LF] ++ [LF] ++ u "b" ++ [LF]) = [u "a"; []; u "b"; []].
Proof. reflexivity. Qed.

Example join_ex :
  join [LF] [u "a"; []; u "b"; []] = u "a" ++ [LF; LF] ++ u "b" ++ [LF].
Proof. reflexivity. Qed.

Example ofUint_ex : ofUint 120 = u "120" /\ ofUint 0 = u "0".
Proof. split; reflexivity. Qed.

Example slice_ex :
  slice 0 3 (u "abcdef") = u "abc" /\ slice 0 200 (u "ab") = u "ab" /\
  slice (-2) 5 (u "abcdef") = u "e".
Proof. repeat split; reflexivity. Qed.

Example replace_ex : replace (u ".md") [] (u "a.md.md") = u "a.md".
Proof. reflexivity. Qed.

Example civil_ex :
  civilFromDays 0 = (1970, 1, 1)%Z /\ civilFromDays 19796 = (2024, 3, 14)%Z /\
  civilFromDays (MakeDay 2024 3 0) = (2024, 2, 29)%Z /\
  MakeDay 2024 3 14 = 19796%Z.
Proof. repeat split; reflexivity. Qed.

Example toISOString_ex :
  toISOString 1710496800000 = u "2024-03-15T10:00:00.000Z" /\
  toISOString (-1) = u "1969-12-31T23:59:59.999Z".
Proof. split; vm_compute; reflexivity. Qed.

Example matchUrls_ex :
  matchUrls 0 (u "see http://x.y/a?b) and https://z (http://) ok") =
  [u "http://x.y/a?b"; u "https://z"].
Proof. vm_compute; reflexivity. Qed.

Example formatTranscript_ex :
  formatTranscript warsaw [bobSaysHi] (u "general") =
  u "# general " ++ [emdash] ++ u " 2024-03-15" ++ [LF; LF] ++
  u "### 11:00 " ++ [emdash] ++ u " bob" ++ [LF; LF] ++ u "hi" ++ [LF].
Proof. vm_compute; reflexivity. Qed.

(** ** Strings *)

Section Strings.

Implicit Types (p s r : jsstring) (c x : N) (ls : list jsstring).

Lemma stripPrefix_app p s : stripPrefix p (p ++ s) = Some s.
Proof.
  induction p as [|a p IH]; simpl; [done|].
  by rewrite N.eqb_refl.
Qed.

Lemma stripPrefix_startsWith p s :
  startsWith p s = false -> stripPrefix p s = None.
Proof.
  revert s; induction p as [|a p IH]; intros [|b s]; simpl; try done.
  destruct (a =? b); simpl; auto.
Qed.

Lemma split_no_sep c s : forallb (fun x => negb (x =? c)) s = true -> split c s = [s].
Proof.
  induction s as [|x s IH]; simpl; [done|].
  intros [Hx Hs]%andb_prop.
  destruct (x =? c); [done|]. by rewrite IH.
Qed.

Lemma split_app_sep c s r :
  forallb (fun x => negb (x =? c)) s = true ->
  split c (s ++ c :: r) = s :: split c r.
Proof.
  induction s as [|x s IH]; simpl.
  - by rewrite N.eqb_refl.
  - intros [Hx Hs]%andb_prop.
    destruct (x =? c); [done|]. by rewrite IH.
Qed.

(** Joining lines that hold no newline and splitting again gives the
    lines back. *)
Lemma split_join c ls :
  ls <> [] ->
  forallb (fun l => forallb (fun x => negb (x =? c)) l) ls = true ->
  split c (join [c] ls) = ls.
Proof.
  induction ls as [|l ls IH]; [done|].
  intros _ [Hl Hls]%andb_prop.
  destruct ls as [|l' ls].
  - simpl. by apply split_no_sep.
  - change (join [c] (l :: l' :: ls)) with (l ++ c :: join [c] (l' :: ls)).
    rewrite split_app_sep by done. f_equal. by apply IH.
Qed.

Lemma join_cons2 sep l l' ls :
  join sep (l :: l' :: ls) = l ++ sep ++ join sep (l' :: ls).
Proof. done. Qed.

(** [x.slice(0, n)] keeps the first [n] elements. *)
Lemma slice_take {A} (n : nat) (l : list A) :
  slice 0 (Z.of_nat n) l = take n l.
Proof.
  unfold slice.
  change (0 <? 0)%Z with false; cbv iota.
  rewrite (Z.min_l 0) by lia.
  destruct (Z.ltb_spec (Z.of_nat n) 0); [lia|].
  rewrite Z.sub_0_r; simpl (Z.to_nat 0); rewrite drop_0.
  destruct (Z.min_spec (Z.of_nat n) (Z.of_nat (length l))) as [[? ->]|[? ->]].
  - by rewrite Nat2Z.id.
  - rewrite Nat2Z.id. rewrite !take_ge; [done|lia|lia].
Qed.

Lemma hd_split_subset c s x : In x (hd [] (split c s)) -> In x s.
Proof.
  induction s as [|y s IH]; simpl; [done|].
  destruct (y =? c); simpl; [done|].
  destruct (split c s) as [|l ls]; simpl in *.
  - intros [->|[]]; auto.
  - intros [->|H]; auto.
Qed.
End Strings.

(** A loop that only pushes is an append. *)
Lemma fold_left_push {A B} (f : list A -> B -> list A) (g : B -> list A)
    (xs : list B) (acc : list A) :
  (forall l x, f l x = l ++ g x) ->
  fold_left f xs acc = acc ++ flat_map g xs.
Proof.
  intros Hf. revert acc; induction xs as [|x xs IH]; intros acc; simpl.
  - by rewrite app_nil_r.
  - by rewrite IH, Hf, app_assoc.
Qed.

(** ** The decoder *)

Lemma parseTranscript_flush text : parseTranscript text = flush (parseLoop text).
Proof.
  unfold parseTranscript, flush. destruct (parseLoop text) as [ms [m|]]; simpl; [done|].
  by rewrite app_nil_r.
Qed.

(** A heading line closes the open message and opens the next; any other
    line leaves the number and the headings of the messages alone. *)
Lemma parseLine_headings st line :
  map (fun m => (time m, author m)) (flush (parseLine st line)) =
  map (fun m => (time m, author m)) (flush st) ++
  option_list (headerMatch line).
Proof.
  destruct st as [ms cur]. unfold parseLine.
  destruct (headerMatch line) as [[t a]|]; simpl.
  - unfold flush, push; simpl. destruct cur as [m|]; simpl.
    + by rewrite !map_app.
    + by rewrite app_nil_r, !map_app.
  - rewrite app_nil_r. destruct cur as [m|]; [|done].
    destruct (negb _); [|done].
    unfold flush; simpl. by rewrite !map_app.
Qed.

Lemma parseLines_headings ls st :
  map (fun m => (time m, author m)) (flush (fold_left parseLine ls st)) =
  map (fun m => (time m, author m)) (flush st) ++ omap headerMatch ls.
Proof.
  revert st; induction ls as [|l ls IH]; intros st; simpl.
  - by rewrite app_nil_r.
  - rewrite IH, parseLine_headings, <- app_assoc. f_equal.
    by destruct (headerMatch l).
Qed.

(** C8: the message still open at the end of the input is emitted, after
    the closed ones; so every heading line of the input, the last one
    included, gives one message, in order. *)
Theorem parseTranscript_emits_open_message (text : jsstring) :
  (forall closed m,
      parseLoop text = (closed, Some m) -> parseTranscript text = closed ++ [m]) /\
  map (fun m => (time m, author m)) (parseTranscript text) =
    omap headerMatch (split LF text).
Proof.
  split.
  - intros closed m H. unfold parseTranscript. by rewrite H.
  - rewrite parseTranscript_flush. unfold parseLoop.
    by rewrite parseLines_headings.
Qed.

Lemma parseTranscript_emits_open_message_witness :
  parseLoop (u "### 10:00 " ++ [emdash] ++ u " bob") =
    ([], Some {| time := u "10:00"; author := u "bob"; content := [] |}) /\
  parseTranscript (u "### 10:00 " ++ [emdash] ++ u " bob") =
    [] ++ [{| time := u "10:00"; author := u "bob"; content := [] |}].
Proof.
  split; [reflexivity|].
  apply (proj1 (parseTranscript_emits_open_message _)). reflexivity.
Defined.

(** ** Dates as text *)

Lemma digit_ge d : 48 <= digit d.
Proof. unfold digit. lia. Qed.

Lemma isDigit_digit z : isDigit (digit (z mod 10)) = true.
Proof.
  unfold isDigit, digit.
  pose proof (Z.mod_pos_bound z 10 ltac:(lia)).
  apply andb_true_intro; split; apply N.leb_le; lia.
Qed.

Lemma printable_pad2 z : printable (pad2 z).
Proof. repeat constructor; apply N.le_trans with 48; try apply digit_ge; lia. Qed.

Lemma printable_pad3 z : printable (pad3 z).
Proof. repeat constructor; apply N.le_trans with 48; try apply digit_ge; lia. Qed.

Lemma printable_pad4 z : printable (pad4 z).
Proof. repeat constructor; apply N.le_trans with 48; try apply digit_ge; lia. Qed.

Lemma printable_pad6 z : printable (pad6 z).
Proof. repeat constructor; apply N.le_trans with 48; try apply digit_ge; lia. Qed.

Lemma printable_lit (s : string) :
  forallb (fun x => 43 <=? x) (u s) = true -> printable (u s).
Proof.
  intros H. apply Forall_forall. intros x Hx%list_elem_of_In.
  rewrite forallb_forall in H. apply N.leb_le. auto.
Qed.

Lemma printable_app s r : printable s -> printable r -> printable (s ++ r).
Proof. intros; by apply Forall_app. Qed.

Create HintDb printable.
#[local] Hint Resolve printable_pad2 printable_pad3 printable_pad4
  printable_pad6 printable_app : printable.

Lemma printable_toISOString t : printable (toISOString t).
Proof.
  unfold toISOString, isoYear.
  repeat case_match;
    repeat (first [ apply printable_pad6 | apply printable_app
                  | apply printable_lit; reflexivity ]);
    auto with printable.
Qed.

Lemma singleLine_datePart s : printable s -> singleLine (datePart s) = true.
Proof.
  intros H. apply forallb_forall. intros x Hx%hd_split_subset%list_elem_of_In.
  unfold printable in H; rewrite Forall_forall in H. apply H in Hx.
  apply negb_true_iff, N.eqb_neq. unfold LF. lia.
Qed.

Lemma singleLine_app s r : singleLine (s ++ r) = singleLine s && singleLine r.
Proof. apply forallb_app. Qed.

Lemma toLocaleTimeString_shape tz t :
  exists d1 d2 d3 d4,
    toLocaleTimeString tz t = [d1; d2; 58; d3; d4] /\
    isDigit d1 = true /\ isDigit d2 = true /\ isDigit d3 = true /\
    isDigit d4 = true.
Proof.
  unfold toLocaleTimeString, pad2. do 4 eexists. split; [reflexivity|].
  repeat split; apply isDigit_digit.
Qed.

Lemma singleLine_time tz t : singleLine (toLocaleTimeString tz t) = true.
Proof.
  destruct (toLocaleTimeString_shape tz t) as (d1 & d2 & d3 & d4 & -> & H1 & H2 & H3 & H4).
  unfold isDigit in *. simpl. unfold LF.
  repeat match goal with H : _ && _ = true |- _ => apply andb_prop in H as [?%N.leb_le ?%N.leb_le] end.
  repeat (apply andb_true_intro; split); try done; apply negb_true_iff, N.eqb_neq; lia.
Qed.

(** ** The encoder *)

Lemma formatTranscript_lines env messages channel :
  formatTranscript env messages channel =
  join [LF] (titleLine env channel :: [] :: flat_map (block env) messages).
Proof.
  unfold formatTranscript, push.
  rewrite (fold_left_push _ (block env)); [done|].
  intros l x. unfold block. by rewrite <- !app_assoc.
Qed.

(** ** Decoding what the encoder wrote *)

Lemma headerMatch_heading t who :
  (exists d1 d2 d3 d4,
     t = [d1; d2; 58; d3; d4] /\ isDigit d1 = true /\ isDigit d2 = true /\
     isDigit d3 = true /\ isDigit d4 = true) ->
  truthy who = true ->
  forallb (fun x => negb (isLineTerminator x)) who = true ->
  headerMatch (u "### " ++ t ++ sepDash ++ who) = Some (t, who).
Proof.
  intros (d1 & d2 & d3 & d4 & -> & H1 & H2 & H3 & H4) Hne Hlt.
  unfold headerMatch. rewrite stripPrefix_app. cbn [app]. cbv iota beta.
  rewrite H1, H2, H3, H4, stripPrefix_app, Hne, Hlt. done.
Qed.

Lemma headerMatch_plain c :
  startsWith (u "### ") c = false -> headerMatch c = None.
Proof. intros H. unfold headerMatch. by rewrite stripPrefix_startsWith. Qed.

Lemma lineTerminator_singleLine s :
  forallb (fun x => negb (isLineTerminator x)) s = true -> singleLine s = true.
Proof.
  unfold singleLine. rewrite !forallb_forall. intros H x Hx.
  specialize (H x Hx). unfold isLineTerminator in H.
  destruct (x =? LF); [done|done].
Qed.

Section RoundTrip.
Variable env : Env.

Lemma headable_heading msg :
  headable msg = true ->
  headerMatch (u "### " ++ msgTime env msg ++ sepDash ++ msgAuthor msg) =
  Some (msgTime env msg, msgAuthor msg).
Proof.
  unfold headable, msgTime.
  intros [[Ht Hne]%andb_prop Hlt]%andb_prop.
  destruct (createdAt msg) as [t|]; [|done].
  apply headerMatch_heading; auto using toLocaleTimeString_shape.
Qed.

(** The decoder on the four lines of one message. *)
Lemma parseLine_block msg st :
  wellFormed msg = true ->
  fold_left parseLine (block env msg) st = (flush st, Some (decoded env msg)).
Proof.
  intros [Hh Hp]%andb_prop.
  unfold plainContent in Hp.
  apply andb_prop in Hp as [[Hsl H3%negb_true_iff]%andb_prop H1%negb_true_iff].
  destruct st as [ms cur]. unfold block.
  cbn [fold_left]. unfold parseLine at 4.
  rewrite (headable_heading _ Hh).
  unfold parseLine at 3. change (headerMatch []) with (@None (jsstring * jsstring)).
  cbv iota beta. change (startsWith (u "# ") []) with false.
  cbn [negb content time author truthy app].
  unfold parseLine at 2. rewrite (headerMatch_plain _ H3), H1.
  cbn [negb content time author truthy app].
  unfold parseLine. change (headerMatch []) with (@None (jsstring * jsstring)).
  cbv iota beta. change (startsWith (u "# ") []) with false.
  cbn [negb content time author].
  unfold flush, decoded, push. cbn [fst snd].
  f_equal.
  - destruct cur; simpl; [done|]. by rewrite app_nil_r.
  - f_equal. f_equal. destruct (msgContent msg); [done|].
    cbn [truthy]. by rewrite app_nil_r.
Qed.

Lemma parseLine_blocks messages st :
  forallb wellFormed messages = true ->
  flush (fold_left parseLine (flat_map (block env) messages) st) =
  flush st ++ map (decoded env) messages.
Proof.
  revert st; induction messages as [|msg messages IH]; intros st;
    cbn [flat_map forallb map fold_left].
  - by rewrite app_nil_r.
  - intros [Hm Hms]%andb_prop.
    rewrite fold_left_app, parseLine_block, IH by done.
    unfold flush at 1. cbn [fst snd option_list].
    by rewrite <- app_assoc.
Qed.

Lemma singleLine_block msg :
  wellFormed msg = true -> forallb singleLine (block env msg) = true.
Proof.
  intros [Hh Hp]%andb_prop.
  unfold headable in Hh. apply andb_prop in Hh as [[Ht _]%andb_prop Hlt].
  unfold plainContent in Hp. apply andb_prop in Hp as [[Hsl _]%andb_prop _].
  unfold block. cbn [forallb]. rewrite !singleLine_app.
  rewrite (lineTerminator_singleLine _ Hlt).
  unfold msgTime. destruct (createdAt msg); [|done].
  rewrite singleLine_time. unfold singleLine at 4. by rewrite Hsl.
Qed.

Lemma singleLine_blocks messages :
  forallb wellFormed messages = true ->
  forallb singleLine (flat_map (block env) messages) = true.
Proof.
  induction messages as [|msg messages IH]; [done|].
  intros [Hm Hms]%andb_prop.
  change (flat_map (block env) (msg :: messages))
    with (block env msg ++ flat_map (block env) messages).
  by rewrite forallb_app, singleLine_block, IH.
Qed.

(** The decoder on a whole transcript. *)
Lemma parseTranscript_formatTranscript messages channel :
  singleLine channel = true ->
  forallb wellFormed messages = true ->
  parseTranscript (formatTranscript env messages channel) =
  map (decoded env) messages.
Proof.
  intros Hc Hwf.
  rewrite parseTranscript_flush, formatTranscript_lines. unfold parseLoop.
  rewrite split_join; [|done|].
  - cbn [fold_left]. unfold parseLine at 2, parseLine at 1.
    change (headerMatch (titleLine env channel)) with (@None (jsstring * jsstring)).
    change (headerMatch []) with (@None (jsstring * jsstring)).
    cbv iota beta. by rewrite parseLine_blocks.
  - cbn [forallb]. fold singleLine.
    rewrite singleLine_blocks by done.
    unfold titleLine. rewrite !singleLine_app, Hc.
    by rewrite singleLine_datePart by apply printable_toISOString.
Qed.
End RoundTrip.

(** C1, as stated, fails: the decoded content of a non-empty message ends
    in the newline of the blank line that closes its block. *)
Lemma roundtrip_fields_counterexample :
  forallb (fun m => plainContent (msgContent m)) [bobSaysHi] = true /\
  parseTranscript (formatTranscript warsaw [bobSaysHi] (u "general")) =
    [{| time := u "11:00"; author := u "bob"; content := u "hi" ++ [LF] |}] /\
  parseTranscript (formatTranscript warsaw [bobSaysHi] (u "general")) <>
    map (fields warsaw) [bobSaysHi].
Proof.
  split; [vm_compute; reflexivity|].
  split; [vm_compute; reflexivity|].
  intros H. vm_compute in H. discriminate H.
Qed.

(** C1, amended: decoding an encoded transcript gives the messages back in
    order with their time and author, the content followed by a newline when
    it is not empty; this for messages whose heading can be read back (a
    valid [createdAt], a non-empty one-line author) and whose content is a
    single line that begins with neither ["### "] nor ["# "], under a
    one-line channel name. *)
Theorem roundtrip_decoded (env : Env) (messages : list RawMsg)
    (channel : jsstring) :
  singleLine channel = true ->
  forallb wellFormed messages = true ->
  parseTranscript (formatTranscript env messages channel) =
    map (decoded env) messages /\
  map (fun m => (time m, author m))
      (parseTranscript (formatTranscript env messages channel)) =
    map (fun m => (time m, author m)) (map (fields env) messages).
Proof.
  intros Hc Hwf.
  rewrite parseTranscript_formatTranscript by done.
  split; [done|]. by rewrite !map_map.
Qed.

Lemma roundtrip_decoded_witness :
  parseTranscript (formatTranscript warsaw [bobSaysHi] (u "general")) =
    map (decoded warsaw) [bobSaysHi].
Proof.
  apply (roundtrip_decoded warsaw [bobSaysHi] (u "general")); reflexivity.
Defined.

(** Without an author or without a valid date the heading is not read back
    and the message is lost; a content that looks like a heading starts a
    message of its own. *)
Example decode_unheadable :
  parseTranscript (formatTranscript warsaw [anonymous] (u "general")) = [] /\
  parseTranscript (formatTranscript warsaw [undated] (u "general")) = [].
Proof. split; vm_compute; reflexivity. Qed.

Example decode_quoted_heading :
  map (fun m => (time m, author m))
      (parseTranscript (formatTranscript warsaw [quoting] (u "general"))) =
  [(u "11:00", u "bob"); (u "09:30", u "eve")].
Proof. vm_compute; reflexivity. Qed.

(** ** Encoding again *)

Lemma block_viewRaw env msg :
  block env (viewRaw (decoded env msg)) = reBlock env msg.
Proof.
  unfold block, reBlock, viewRaw, decoded, msgTime, msgAuthor.
  cbn [createdAt displayName userId content orElse interpolate].
  do 2 f_equal. unfold msgContent at 1. cbn [rawContent orElse].
  by destruct (msgContent msg).
Qed.

Lemma flat_map_reBlock env messages :
  flat_map (block env) (map viewRaw (map (decoded env) messages)) =
  flat_map (reBlock env) messages.
Proof.
  induction messages as [|msg messages IH]; [done|].
  cbn [map flat_map]. by rewrite block_viewRaw, IH.
Qed.

(** C2, amended: a parsed message has none of the properties the encoder
    reads for the heading, and its content has gained a newline; so the
    re-encoded transcript has the heading [### Invalid Date — undefined] in
    every block, and equals the first encoding only when there is no
    message. *)
Theorem reencode_decoded (env : Env) (messages : list RawMsg)
    (channel : jsstring) :
  singleLine channel = true ->
  forallb wellFormed messages = true ->
  formatTranscript env
    (map viewRaw (parseTranscript (formatTranscript env messages channel)))
    channel =
    join [LF] (titleLine env channel :: [] :: flat_map (reBlock env) messages) /\
  (formatTranscript env
     (map viewRaw (parseTranscript (formatTranscript env messages channel)))
     channel = formatTranscript env messages channel <-> messages = []).
Proof.
  intros Hc Hwf.
  rewrite parseTranscript_formatTranscript by done.
  rewrite !formatTranscript_lines, flat_map_reBlock.
  split; [done|]. split; [|by intros ->].
  destruct messages as [|msg messages]; [done|]. intros H; exfalso.
  cbn [flat_map forallb] in *.
  apply andb_prop in Hwf as [[Hh _]%andb_prop _].
  unfold reBlock, block in H. unfold headable, msgTime in *.
  destruct (createdAt msg) as [t|]; [|done].
  destruct (toLocaleTimeString_shape (zone env) t)
    as (d1 & d2 & d3 & d4 & Ht & H1 & _).
  rewrite Ht in H.
  cbn [app] in H. rewrite !join_cons2 in H.
  apply app_inv_head in H. cbn [app] in H.
  apply (f_equal (fun l => nth 6 l 0)) in H. simpl in H. subst d1. done.
Qed.

Lemma reencode_decoded_witness :
  formatTranscript warsaw
    (map viewRaw (parseTranscript (formatTranscript warsaw [bobSaysHi] (u "general"))))
    (u "general") =
  join [LF] (titleLine warsaw (u "general") :: [] :: flat_map (reBlock warsaw) [bobSaysHi]).
Proof.
  apply (reencode_decoded warsaw [bobSaysHi] (u "general")); reflexivity.
Defined.

(** C2, as stated, fails: the re-encoded text differs from the first
    encoding. *)
Lemma reencode_counterexample :
  forallb wellFormed [bobSaysHi] = true /\
  formatTranscript warsaw
    (map viewRaw (parseTranscript (formatTranscript warsaw [bobSaysHi] (u "general"))))
    (u "general") <>
  formatTranscript warsaw [bobSaysHi] (u "general").
Proof.
  split; [vm_compute; reflexivity|].
  intros H. vm_compute in H. discriminate H.
Qed.

(** ** The calendar *)

Section Calendar.

Local Open Scope Z_scope.

Lemma era_bounds doe :
  0 <= doe < 146097 ->
  let yoe := (doe - doe / 1460 + doe / 36524 - doe / 146096) / 365 in
  let doy := doe - (365 * yoe + yoe / 4 - yoe / 100) in
  let mp := (5 * doy + 2) / 153 in
  0 <= yoe < 400 /\ 0 <= mp < 12.
Proof.
  intros H yoe doy mp. subst mp doy yoe. Z.div_mod_to_equations; lia.
Qed.

(** [MakeDay] on the year and month of a day counts from that day: day
    [dt] of the month of day number [z] is [dt - d] days after [z], where
    [d] is its own day of the month. *)
Lemma MakeDay_civilFromDays z dt :
  MakeDay (civilFromDays z).1.1 (civilFromDays z).1.2 dt =
  z + (dt - (civilFromDays z).2).
Proof.
  unfold civilFromDays.
  set (era := (z + 719468) / 146097).
  set (doe := z + 719468 - era * 146097).
  assert (0 <= doe < 146097) as Hdoe.
  { subst doe era. Z.div_mod_to_equations; lia. }
  destruct (era_bounds doe Hdoe) as [Hyoe Hmp].
  set (yoe := (doe - doe / 1460 + doe / 36524 - doe / 146096) / 365) in *.
  set (doy := doe - (365 * yoe + yoe / 4 - yoe / 100)) in *.
  set (mp := (5 * doy + 2) / 153) in *.
  set (m := if mp <? 10 then mp + 3 else mp - 9).
  cbn [fst snd]. unfold MakeDay.
  assert (forall y,
    (if m <=? 2 then (if m <=? 2 then y + 1 else y) - 1
     else (if m <=? 2 then y + 1 else y)) = y) as Hy.
  { intros y. destruct (m <=? 2); lia. }
  rewrite Hy.
  assert ((if 2 <? m then m - 3 else m + 9) = mp) as Hm.
  { subst m. destruct (Z.ltb_spec mp 10).
    - destruct (Z.ltb_spec 2 (mp + 3)); lia.
    - destruct (Z.ltb_spec 2 (mp - 9)); lia. }
  rewrite Hm.
  assert ((yoe + era * 400) / 400 = era) as He.
  { symmetry. apply Z.div_unique with yoe; lia. }
  rewrite He.
  replace (yoe + era * 400 - era * 400) with yoe by lia.
  subst doy doe. lia.
Qed.

Lemma Day_MakeDate day time :
  0 <= time < msPerDay -> Day (MakeDate day time) = day.
Proof.
  intros H. unfold Day, MakeDate, msPerDay in *.
  symmetry. apply Z.div_unique with time; lia.
Qed.

Lemma TimeWithinDay_MakeDate day time :
  0 <= time < msPerDay -> TimeWithinDay (MakeDate day time) = time.
Proof.
  intros H. unfold TimeWithinDay, MakeDate, msPerDay in *.
  symmetry. apply Z.mod_unique with day; lia.
Qed.

Lemma TimeWithinDay_bounds t : 0 <= TimeWithinDay t < msPerDay.
Proof. unfold TimeWithinDay, msPerDay. Z.div_mod_to_equations; lia. Qed.

Lemma keepsDay_spec z x :
  keepsDay z x = true -> Day (LocalTime z (UTC z x)) = Day x.
Proof. unfold keepsDay. intros H. by apply Z.eqb_eq. Qed.

(** A zone with one offset reads every local time back as it is. *)
Lemma keepsDay_fixedZone tz x : keepsDay (fixedZone tz) x = true.
Proof.
  unfold keepsDay, LocalTime, UTC, fixedZone. apply Z.eqb_eq. f_equal. lia.
Qed.

Lemma keepsWindowDays_fixedZone tz now :
  keepsWindowDays {| clock := now; zone := fixedZone tz |} = true.
Proof. unfold keepsWindowDays. cbn [zone]. by rewrite !keepsDay_fixedZone. Qed.

(** So does a zone with daylight-saving time outside the local times the
    change in spring skips, and these are read back later on the same day
    unless the change jumps over midnight. *)
Lemma keepsDay_dstZone std dst spring autumn x :
  std <= dst -> spring + (dst - std) <= autumn ->
  Day (spring + std) = Day (spring + dst + (dst - std) - 1) ->
  keepsDay (dstZone std dst spring autumn) x = true.
Proof.
  intros Hoff Hyear Hskip. unfold keepsDay, LocalTime, UTC, dstZone.
  apply Z.eqb_eq.
  destruct (Z.leb_spec (spring + dst) x), (Z.ltb_spec x (autumn + dst));
    cbn [andb].
  - destruct (Z.leb_spec spring (x - dst)), (Z.ltb_spec (x - dst) autumn);
      cbn [andb]; try lia. f_equal. lia.
  - destruct (Z.leb_spec spring (x - std)), (Z.ltb_spec (x - std) autumn);
      cbn [andb]; try lia; f_equal; lia.
  - destruct (Z.leb_spec spring (x - std)), (Z.ltb_spec (x - std) autumn);
      cbn [andb]; try lia; [|f_equal; lia].
    unfold Day in *.
    assert ((spring + std) / msPerDay <= x / msPerDay)
      by (apply Z.div_le_mono; [done|lia]).
    assert (x / msPerDay <= (x - std + dst) / msPerDay)
      by (apply Z.div_le_mono; [done|lia]).
    assert ((x - std + dst) / msPerDay <=
            (spring + dst + (dst - std) - 1) / msPerDay)
      by (apply Z.div_le_mono; [done|lia]).
    lia.
  - lia.
Qed.

(** The three example zones read every local time back on its day. *)
Lemma keepsDay_examples x :
  keepsDay europeWarsaw x = true /\ keepsDay americaNewYork x = true /\
  keepsDay asiaTehran x = true.
Proof.
  split; [|split]; apply keepsDay_dstZone;
    first [ vm_compute; congruence | vm_compute; reflexivity ].
Qed.

(** The two boundaries, on any host at any time: 03:00 local time of the
    local day of the clock, and 03:45 local time of the day before, each
    read with the offset the zone gives that local time. *)
Lemma getDateRange_instants (env : Env) :
  keepsWindowDays env = true ->
  let z := zone env in
  let today := Day (LocalTime z (clock env)) in
  beforeInstant env = UTC z (MakeDate today (MakeTime 3 0 0 0)) /\
  afterInstant env = UTC z (MakeDate (today - 1) (MakeTime 3 45 0 0)).
Proof.
  intros [H1%keepsDay_spec H2%keepsDay_spec]%andb_prop z today.
  fold z today in H1, H2. split; [reflexivity|].
  unfold afterInstant, beforeInstant. fold z.
  change (setHours z 3 0 0 0 (clock env))
    with (UTC z (MakeDate today (MakeTime 3 0 0 0))).
  set (l := LocalTime z (UTC z (MakeDate today (MakeTime 3 0 0 0)))) in *.
  rewrite Day_MakeDate in H1 by (vm_compute; split; congruence).
  rewrite Day_MakeDate in H2 by apply TimeWithinDay_bounds.
  unfold setDate, getDate. fold l.
  unfold YearFromTime, MonthFromTime, DateFromTime.
  rewrite MakeDay_civilFromDays, H1.
  replace (today + (_ - 1 - _)) with (today - 1) by lia.
  unfold setHours. by rewrite H2.
Qed.

End Calendar.

(** ** The date window *)

Lemma digit_not_T z : negb (digit (z mod 10) =? 84) = true.
Proof.
  pose proof (isDigit_digit z) as [H1%N.leb_le H2%N.leb_le]%andb_prop.
  apply negb_true_iff, N.eqb_neq. lia.
Qed.

Lemma isoDate_no_T t : forallb (fun x => negb (x =? 84)) (isoDate t) = true.
Proof.
  unfold isoDate, isoYear, pad6, pad4, pad3, pad2.
  repeat case_match; cbn [forallb app u List.map list_ascii_of_string];
    rewrite ?digit_not_T; reflexivity.
Qed.

(** The label part of an ISO string is the UTC calendar date. *)
Lemma datePart_toISOString t : datePart (toISOString t) = isoDate t.
Proof.
  assert (exists r, toISOString t = isoDate t ++ 84 :: r) as [r ->].
  { eexists. unfold toISOString, isoDate. rewrite <- !app_assoc. reflexivity. }
  unfold datePart. by rewrite split_app_sep by apply isoDate_no_T.
Qed.

(** The window as the code returns it: the two boundaries as ISO texts
    and, as label, the calendar date in UTC of the first. *)
Lemma getDateRange_boundaries (env : Env) :
  getDateRange env =
  {| after := toISOString (afterInstant env);
     before := toISOString (beforeInstant env);
     dateStr := isoDate (afterInstant env) |}.
Proof.
  unfold getDateRange, afterInstant, beforeInstant.
  by rewrite datePart_toISOString.
Qed.

(** C3: the claim does not hold of the code east of UTC+03:45. On a host
    in Japan (UTC+9 all year) at 2024-03-15T10:00:00 local time the window
    runs from 2024-03-14T03:45:00 local to 2024-03-15T03:00:00 local, as the
    claim says, but the label is ["2024-03-13"], the date in UTC of [after],
    where the claim and the comments of the code ("the day the messages are
    FROM") have ["2024-03-14"]; on a host one hour east of UTC the label is
    ["2024-03-14"]. *)
Theorem getDateRange_label_east :
  let r := getDateRange (reference 540) in
  after r = toISOString (localInstant 540 2024 3 14 3 45) /\
  before r = toISOString (localInstant 540 2024 3 15 3 0) /\
  r = {| after := u "2024-03-13T18:45:00.000Z";
         before := u "2024-03-14T18:00:00.000Z";
         dateStr := u "2024-03-13" |} /\
  dateStr (getDateRange (reference 60)) = u "2024-03-14".
Proof.
  cbv zeta. rewrite !getDateRange_boundaries. cbn [after before dateStr].
  assert (afterInstant (reference 540) = localInstant 540 2024 3 14 3 45)
    as -> by (vm_compute; reflexivity).
  assert (beforeInstant (reference 540) = localInstant 540 2024 3 15 3 0)
    as -> by (vm_compute; reflexivity).
  repeat split; vm_compute; reflexivity.
Qed.

(** ** The classifier *)

Lemma flat_map_singleton {A B} (g : A -> B) (l : list A) :
  flat_map (fun x => [g x]) l = List.map g l.
Proof. induction l as [|x l IH]; [done|]. cbn [flat_map List.map app]. by rewrite IH. Qed.

Section ClassifierFacts.
Variable lowerNonAscii : jsstring -> nat -> jsstring.

Abbreviation lower := (toLowerCase lowerNonAscii).

(** The four lists of the loop grow independently, in message order. *)
Lemma summarizeMessages_lists (messages : list Message) (s : Summary) :
  fold_left (summarizeMessage lowerNonAscii) messages s =
  {| decisions := decisions s ++
       List.map excerptOf
         (List.filter (fun m => isDecision (lower (content m))) messages);
     actions := actions s ++
       List.map excerptOf
         (List.filter (fun m => isAction (lower (content m))) messages);
     links := links s ++ flat_map linksOf messages;
     questions := questions s ++
       List.map questionOf
         (List.filter (fun m => isQuestion (lower (content m))) messages) |}.
Proof.
  revert s; induction messages as [|m messages IH]; intros s.
  - cbn [fold_left List.filter List.map flat_map]. rewrite !app_nil_r. by destruct s.
  - cbn [fold_left List.filter flat_map]. rewrite IH.
    unfold summarizeMessage at 1 2 3 4.
    cbn [decisions actions links questions].
    rewrite (fold_left_push _ (fun url => [{| Link.who := author m; Link.url := url |}]))
      by done.
    unfold push. f_equal.
    + destruct (isDecision _); cbn [List.map]; by rewrite <- ?app_assoc.
    + destruct (isAction _); cbn [List.map]; by rewrite <- ?app_assoc.
    + by rewrite flat_map_singleton, <- app_assoc.
    + destruct (isQuestion _); cbn [List.map]; by rewrite <- ?app_assoc.
Qed.

Lemma summarizeChannel_lists (messages : list Message) (channel : jsstring) :
  summarizeChannel lowerNonAscii messages channel =
  {| decisions :=
       List.map excerptOf
         (List.filter (fun m => isDecision (lower (content m))) messages);
     actions :=
       List.map excerptOf
         (List.filter (fun m => isAction (lower (content m))) messages);
     links := flat_map linksOf messages;
     questions :=
       List.map questionOf
         (List.filter (fun m => isQuestion (lower (content m))) messages) |}.
Proof. unfold summarizeChannel. by rewrite summarizeMessages_lists. Qed.

Hypothesis table : lowerTableOk lowerNonAscii.

Lemma lowerAscii_ge c : 128 <= c -> lowerAscii c = c.
Proof.
  intros H. unfold lowerAscii.
  destruct (N.leb_spec c 90); [lia|]. by rewrite andb_false_r.
Qed.

Lemma drop_cons_inv (whole : jsstring) i c s :
  drop i whole = c :: s -> whole !! i = Some c /\ drop (S i) whole = s.
Proof.
  intros H.
  assert (whole !! i = Some c) as Hc.
  { pose proof (lookup_drop whole i 0) as E.
    rewrite H, Nat.add_0_r in E. by symmetry. }
  split; [done|]. rewrite (drop_S _ _ _ Hc) in H. by injection H.
Qed.

Lemma startsWith_lowerFrom whole p :
  Forall (safe lowerNonAscii) p ->
  forall s i, drop i whole = s ->
    startsWith p (lowerFrom lowerNonAscii whole i s) = startsWithNoCase p s.
Proof.
  induction 1 as [|a p (Ha & Hfix & Hout) Hp IH]; intros s i Hd; [done|].
  destruct s as [|x s]; [done|].
  apply drop_cons_inv in Hd as [Hx' Hd].
  cbn [lowerFrom startsWithNoCase].
  destruct (N.ltb_spec x 128) as [Hx|Hx].
  - cbn [app startsWith]. by rewrite (IH s (S i) Hd), Hfix.
  - destruct (table whole i x Hx' Hx) as [Hne _].
    destruct (lowerNonAscii whole i) as [|d ds] eqn:E; [done|].
    cbn [app startsWith].
    rewrite Hfix, (lowerAscii_ge x Hx).
    destruct (N.eqb_spec a d) as [->|_].
    + exfalso. apply (Hout whole i x Hx' Hx). rewrite E. by left.
    + destruct (N.eqb_spec a x); [lia|done].
Qed.

Lemma includes_skip a p l r :
  ~ In a l -> includes (a :: p) (l ++ r) = includes (a :: p) r.
Proof.
  induction l as [|d l IH]; [done|].
  intros Hin. cbn [app includes startsWith].
  destruct (N.eqb_spec a d) as [->|_]; [exfalso; apply Hin; by left|].
  cbn [andb orb]. apply IH. intros ?; apply Hin; by right.
Qed.

Lemma includes_lowerFrom whole p :
  p <> [] -> Forall (safe lowerNonAscii) p ->
  forall s i, drop i whole = s ->
    includes p (lowerFrom lowerNonAscii whole i s) = includesNoCase p s.
Proof.
  intros Hne Hp s. induction s as [|x s IH]; intros i Hd.
  - destruct p; done.
  - pose proof (startsWith_lowerFrom whole p Hp (x :: s) i Hd) as Hsw.
    apply drop_cons_inv in Hd as [Hx' Hd].
    cbn [includesNoCase]. rewrite <- (IH (S i) Hd), <- Hsw.
    cbn [lowerFrom].
    destruct (N.ltb_spec x 128) as [Hx|Hx]; [done|].
    destruct p as [|a p]; [done|].
    apply Forall_cons in Hp as [(_ & _ & Hout) _].
    rewrite includes_skip by eauto.
    destruct (lowerNonAscii whole i) as [|d ds] eqn:E.
    { by destruct (table whole i x Hx' Hx). }
    cbn [app startsWith].
    destruct (N.eqb_spec a d) as [->|_]; [|done].
    exfalso. apply (Hout whole i x Hx' Hx). rewrite E. by left.
Qed.

Lemma includes_lower p s :
  p <> [] -> Forall (safe lowerNonAscii) p ->
  includes p (lower s) = includesNoCase p s.
Proof. intros Hne Hp. by apply includes_lowerFrom. Qed.

Lemma safe_question_mark : safe lowerNonAscii 63.
Proof.
  split; [lia|]. split; [done|].
  intros whole i c Hi Hc Hin. destruct (table whole i c Hi Hc) as [_ H].
  by destruct (H _ Hin).
Qed.

Lemma safe_http : Forall (safe lowerNonAscii) (u "http").
Proof.
  assert (forall a, a = 104 \/ a = 116 \/ a = 112 -> safe lowerNonAscii a) as Hs.
  { intros a Ha. split; [lia|]. split; [by destruct Ha as [->|[->| ->]]|].
    intros whole i c Hi Hc Hin. destruct (table whole i c Hi Hc) as [_ H].
    destruct (H _ Hin) as (? & ? & ? & ?). lia. }
  repeat (constructor; [apply Hs; auto|]). constructor.
Qed.

(** A question mark has no other case. *)
Lemma includesNoCase_question_mark s :
  includesNoCase (u "?") s = includes (u "?") s.
Proof.
  induction s as [|x s IH]; [done|].
  cbn [includesNoCase includes]. rewrite IH. f_equal.
  change (u "?") with [63]. cbn [startsWithNoCase startsWith].
  f_equal. unfold lowerAscii at 2.
  destruct (N.leb_spec 65 x), (N.leb_spec x 90); cbn [andb];
    change (lowerAscii 63) with 63;
    destruct (N.eqb_spec 63 x), (N.eqb_spec 63 (x + 32)); try done; lia.
Qed.

Lemma isQuestion_lower s :
  isQuestion (lower s) =
  includes (u "?") s && negb (includesNoCase (u "http") s).
Proof.
  unfold isQuestion.
  rewrite (includes_lower (u "?")), (includes_lower (u "http")),
    includesNoCase_question_mark; try done.
  - apply safe_http.
  - constructor; [apply safe_question_mark|constructor].
Qed.
End ClassifierFacts.

(** ** The renderer *)

Lemma pushSection_lines {A} (title : jsstring) (n : nat) (bullet : A -> jsstring)
    (entries : list A) (lines : list jsstring) :
  (0 < n)%nat ->
  pushSection title (Z.of_nat n) bullet entries lines =
  lines ++ sectionLines title (List.map bullet (take n entries)).
Proof.
  intros Hn. unfold pushSection.
  destruct entries as [|e entries].
  - cbn. by rewrite take_nil, app_nil_r.
  - cbn [length Nat.ltb Nat.leb].
    rewrite (fold_left_push _ (fun e => [bullet e])) by done.
    rewrite flat_map_singleton, slice_take. unfold push.
    destruct n as [|n]; [lia|]. cbn [take List.map sectionLines].
    rewrite <- !app_assoc. done.
Qed.

Lemma summaryLines_sections (channel : jsstring) (messages : list Message)
    (summary : Summary) :
  summaryLines channel messages summary =
  preambleLines channel messages ++
  sectionLines (u "## Key Decisions")
    (List.map bulletSignal (take 5 (decisions summary))) ++
  sectionLines (u "## Action Items")
    (List.map bulletSignal (take 5 (actions summary))) ++
  sectionLines (u "## Links Shared")
    (List.map bulletLink (take 10 (links summary))) ++
  sectionLines (u "## Open Questions")
    (List.map bulletQuestion (take 5 (questions summary))).
Proof.
  unfold summaryLines. fold (preambleLines channel messages).
  change 5%Z with (Z.of_nat 5). change 10%Z with (Z.of_nat 10).
  rewrite !pushSection_lines by lia. by rewrite <- !app_assoc.
Qed.



(** C5: each section of the summary holds the bullets of the first entries
    of its category, in order: at most 5 decisions, 5 actions, 10 links and
    5 questions; seven decisions give the bullets of the first five. *)
Theorem summary_caps (channel : jsstring) (messages : list Message)
    (summary : Summary) (lowerNonAscii : jsstring -> nat -> jsstring) :
  formatSummary channel messages summary =
    join [LF]
      (preambleLines channel messages ++
       sectionLines (u "## Key Decisions")
         (List.map bulletSignal (take 5 (decisions summary))) ++
       sectionLines (u "## Action Items")
         (List.map bulletSignal (take 5 (actions summary))) ++
       sectionLines (u "## Links Shared")
         (List.map bulletLink (take 10 (links summary))) ++
       sectionLines (u "## Open Questions")
         (List.map bulletQuestion (take 5 (questions summary)))) /\
  ((length (take 5 (decisions summary)) <= 5)%nat /\
   (length (take 5 (actions summary)) <= 5)%nat /\
   (length (take 10 (links summary)) <= 10)%nat /\
   (length (take 5 (questions summary)) <= 5)%nat) /\
  (length (decisions (summarizeChannel lowerNonAscii sevenDecisions channel)) = 7%nat /\
   summaryLines channel sevenDecisions
     (summarizeChannel lowerNonAscii sevenDecisions channel) =
   preambleLines channel sevenDecisions ++
   [u "## Key Decisions"; []] ++
   List.map renderExcerpt (List.map decided [1; 2; 3; 4; 5]) ++ [[]]).
Proof.
  split; [|split].
  - unfold formatSummary. by rewrite summaryLines_sections.
  - rewrite !length_take. lia.
  - rewrite summaryLines_sections, summarizeChannel_lists.
    cbn [decisions actions links questions]. split; reflexivity.
Qed.

(** C7: a decision or an action keeps the first 200 characters of the
    content of its message, and its bullet shows the first 150 of those
    between the author in bold and three dots. *)
Theorem excerpt_two_layers (lowerNonAscii : jsstring -> nat -> jsstring)
    (messages : list Message) (channel : jsstring) :
  let summary := summarizeChannel lowerNonAscii messages channel in
  let isDec m := isDecision (toLowerCase lowerNonAscii (content m)) in
  let isAct m := isAction (toLowerCase lowerNonAscii (content m)) in
  decisions summary = List.map excerptOf (List.filter isDec messages) /\
  actions summary = List.map excerptOf (List.filter isAct messages) /\
  (forall m, what (excerptOf m) = take 200 (content m) /\
             bulletSignal (excerptOf m) = renderExcerpt m) /\
  (forall d, bulletSignal d =
             u "- **" ++ who d ++ u "**: " ++ take 150 (what d) ++ u "...") /\
  exists rest,
    summaryLines channel messages summary =
    preambleLines channel messages ++
    sectionLines (u "## Key Decisions")
      (List.map renderExcerpt (take 5 (List.filter isDec messages))) ++
    sectionLines (u "## Action Items")
      (List.map renderExcerpt (take 5 (List.filter isAct messages))) ++
    rest.
Proof.
  intros summary isDec isAct.
  assert (forall m, bulletSignal (excerptOf m) = renderExcerpt m) as Hb.
  { intros m. unfold bulletSignal, excerptOf, renderExcerpt. cbn [who what].
    change 200%Z with (Z.of_nat 200). change 150%Z with (Z.of_nat 150).
    by rewrite !slice_take. }
  subst summary. rewrite summaryLines_sections, summarizeChannel_lists.
  cbn [decisions actions links questions].
  split; [done|]. split; [done|]. split; [|split].
  - intros m. split; [|apply Hb]. unfold excerptOf. cbn [what].
    change 200%Z with (Z.of_nat 200). by rewrite slice_take.
  - intros d. unfold bulletSignal.
    change 150%Z with (Z.of_nat 150). by rewrite slice_take.
  - eexists. rewrite !firstn_map, !map_map.
    rewrite !(map_ext _ _ Hb). reflexivity.
Qed.

(** ** The loop of the collector *)

Section CollectorFacts.
Variable httpGet : jsstring -> HttpOutcome.
Variables (env : Env) (after before : jsstring).

Lemma md_inj (a b : jsstring) : a ++ u ".md" = b ++ u ".md" -> a = b.
Proof. apply app_inv_tail. Qed.

Lemma collectChannel_other (dir : gmap jsstring jsstring) (c channel : jsstring) :
  c <> channel ->
  collectChannel httpGet env after before dir c !! (channel ++ u ".md") =
  dir !! (channel ++ u ".md").
Proof.
  intros Hne. unfold collectChannel.
  destruct (fetchMessages _ _ _ _) as [|response]; [done|].
  destruct (responseMessages response) as [messages|]; [|done].
  destruct (length messages =? 0)%nat; [done|].
  apply lookup_insert_ne. intros ?%md_inj. done.
Qed.

Lemma collectChannel_empty (dir : gmap jsstring jsstring) (channel : jsstring)
    (response : Response) :
  fetchMessages httpGet channel after before = Resolved response ->
  responseMessages response = Some [] ->
  collectChannel httpGet env after before dir channel = dir.
Proof. intros Hf Hr. unfold collectChannel. by rewrite Hf, Hr. Qed.

Lemma collectChannels_empty (channels : list jsstring)
    (dir : gmap jsstring jsstring) (channel : jsstring) (response : Response) :
  fetchMessages httpGet channel after before = Resolved response ->
  responseMessages response = Some [] ->
  fold_left (collectChannel httpGet env after before) channels dir
    !! (channel ++ u ".md") =
  dir !! (channel ++ u ".md").
Proof.
  intros Hf Hr. revert dir.
  induction channels as [|c channels IH]; intros dir; [done|].
  cbn [fold_left]. rewrite IH.
  destruct (decide (c = channel)) as [->|Hne].
  - by rewrite (collectChannel_empty _ _ _ Hf Hr).
  - by apply collectChannel_other.
Qed.
End CollectorFacts.

(** C10: a channel whose fetch gives an empty list of messages gets no
    transcript file: after the run its file in the day directory is as it
    was before, absent if it was absent. *)
Theorem collector_skips_empty_channel (httpGet : jsstring -> HttpOutcome)
    (env : Env) (root : gmap jsstring (gmap jsstring jsstring))
    (channel : jsstring) (response : Response) :
  let r := getDateRange env in
  fetchMessages httpGet channel (after r) (before r) = Resolved response ->
  responseMessages response = Some [] ->
  readFile (collectorMain httpGet env root) (dateStr r) (channel ++ u ".md") =
  readFile root (dateStr r) (channel ++ u ".md").
Proof.
  intros r Hf Hr. unfold readFile, collectorMain. fold r.
  rewrite lookup_insert_eq.
  rewrite (collectChannels_empty _ _ _ _ _ _ _ _ Hf Hr).
  by destruct (root !! dateStr r).
Qed.

Lemma collector_skips_empty_channel_witness :
  readFile (collectorMain quietApi warsaw ∅)
           (dateStr (getDateRange warsaw)) (u "general" ++ u ".md") =
  readFile ∅ (dateStr (getDateRange warsaw)) (u "general" ++ u ".md").
Proof.
  apply (collector_skips_empty_channel quietApi warsaw ∅ (u "general")
           (RespArray [])); reflexivity.
Defined.

(** ** The loop of the summarizer *)

Section SummarizerFacts.
Variable lowerNonAscii : jsstring -> nat -> jsstring.
Variable logsDir : gmap jsstring jsstring.

Lemma summarizeFile_other (out : gmap jsstring jsstring) (f file : jsstring) :
  f <> file ->
  summarizeFile lowerNonAscii logsDir out f !! file = out !! file.
Proof.
  intros Hne. unfold summarizeFile.
  destruct (logsDir !! f) as [content|]; [|done].
  destruct (_ <? _)%nat; [done|]. by apply lookup_insert_ne.
Qed.

Lemma summarizeFile_self (out : gmap jsstring jsstring) (file content : jsstring) :
  logsDir !! file = Some content ->
  summarizeFile lowerNonAscii logsDir out file !! file =
  summaryOf lowerNonAscii file content (out !! file).
Proof.
  intros Hc. unfold summarizeFile, summaryOf. rewrite Hc.
  destruct (_ <? _)%nat; [done|]. apply lookup_insert_eq.
Qed.

Lemma summarizeFiles_other (files : list jsstring)
    (out : gmap jsstring jsstring) (file : jsstring) :
  ~ In file files ->
  fold_left (summarizeFile lowerNonAscii logsDir) files out !! file =
  out !! file.
Proof.
  revert out; induction files as [|f files IH]; intros out Hin; [done|].
  cbn [fold_left]. rewrite IH by (intros ?; apply Hin; by right).
  apply summarizeFile_other. intros ->. apply Hin. by left.
Qed.

Lemma summarizeFiles_self (files : list jsstring)
    (out : gmap jsstring jsstring) (file content : jsstring) :
  List.NoDup files -> In file files ->
  logsDir !! file = Some content ->
  fold_left (summarizeFile lowerNonAscii logsDir) files out !! file =
  summaryOf lowerNonAscii file content (out !! file).
Proof.
  intros Hnd Hin Hc. revert out.
  induction Hnd as [|f files Hf Hnd IH]; intros out; [done|].
  cbn [fold_left]. destruct Hin as [->|Hin].
  - rewrite summarizeFiles_other by done. by apply summarizeFile_self.
  - rewrite IH by done. f_equal. apply summarizeFile_other.
    intros ->. done.
Qed.

Lemma readdirSync_md (file content : jsstring) :
  logsDir !! file = Some content ->
  endsWith (u ".md") file = true ->
  List.NoDup (List.filter (endsWith (u ".md")) (readdirSync logsDir)) /\
  In file (List.filter (endsWith (u ".md")) (readdirSync logsDir)).
Proof.
  intros Hc He. split.
  - apply List.NoDup_filter. apply NoDup_ListNoDup.
    apply NoDup_fst_map_to_list.
  - apply filter_In. split; [|done].
    apply list_elem_of_In. unfold readdirSync.
    apply list_elem_of_fmap. exists (file, content). split; [done|].
    by apply elem_of_map_to_list.
Qed.
End SummarizerFacts.

(** C6: a transcript gets a summary exactly when it decodes to at least
    three messages; with fewer the place of its summary is left as it was,
    and nothing is written. *)
Theorem summarizer_skip_rule (lowerNonAscii : jsstring -> nat -> jsstring)
    (argv2 : option jsstring) (env : Env)
    (logs summaries : gmap jsstring (gmap jsstring jsstring))
    (logsDir : gmap jsstring jsstring) (file content : jsstring) :
  let day := getTargetDate argv2 env in
  let channel := replace (u ".md") [] file in
  let messages := parseTranscript content in
  logs !! day = Some logsDir ->
  logsDir !! file = Some content ->
  endsWith (u ".md") file = true ->
  readFile (summarizerMain lowerNonAscii argv2 env logs summaries) day file =
    if (3 <=? length messages)%nat
    then Some (formatSummary channel messages
                 (summarizeChannel lowerNonAscii messages channel))
    else readFile summaries day file.
Proof.
  intros day channel messages Hl Hc He.
  unfold readFile, summarizerMain. fold day. rewrite Hl, lookup_insert_eq.
  destruct (readdirSync_md logsDir file content Hc He) as [Hnd Hin].
  rewrite (summarizeFiles_self _ _ _ _ _ content Hnd Hin Hc).
  unfold summaryOf. fold channel messages.
  destruct (Nat.ltb_spec (length messages) 3), (Nat.leb_spec 3 (length messages));
    try lia; [|done].
  by destruct (summaries !! day).
Qed.

Lemma summarizer_skip_rule_witness :
  readFile (summarizerMain keepNonAscii (Some (u "2024-03-14")) warsaw
              (oneLog twoMessages) ∅)
           (u "2024-03-14") (u "general.md") = None /\
  is_Some
    (readFile (summarizerMain keepNonAscii (Some (u "2024-03-14")) warsaw
                 (oneLog threeMessages) ∅)
              (u "2024-03-14") (u "general.md")).
Proof.
  split.
  - rewrite (summarizer_skip_rule keepNonAscii (Some (u "2024-03-14")) warsaw
               (oneLog twoMessages) ∅ {[ u "general.md" := twoMessages ]}
               (u "general.md") twoMessages);
      [| vm_compute; reflexivity ..].
    vm_compute; reflexivity.
  - rewrite (summarizer_skip_rule keepNonAscii (Some (u "2024-03-14")) warsaw
               (oneLog threeMessages) ∅ {[ u "general.md" := threeMessages ]}
               (u "general.md") threeMessages);
      [| vm_compute; reflexivity ..].
    vm_compute. eexists; reflexivity.
Defined.

(** ** The clock *)

Lemma isoDate_Day t1 t2 : Day t1 = Day t2 -> isoDate t1 = isoDate t2.
Proof.
  intros H. unfold isoDate, YearFromTime, MonthFromTime, DateFromTime.
  by rewrite H.
Qed.

Lemma setHours_Day tz h m s ms t1 t2 :
  Day (LocalTime tz t1) = Day (LocalTime tz t2) ->
  setHours tz h m s ms t1 = setHours tz h m s ms t2.
Proof. intros H. unfold setHours. by rewrite H. Qed.

(** C9, as stated, fails: neither function is passed an instant, both read
    the clock, and a day later the same call gives another result. *)
Lemma ambient_clock_counterexample :
  formatTranscript warsaw [bobSaysHi] (u "general") <>
    formatTranscript (nextDay warsaw) [bobSaysHi] (u "general") /\
  getDateRange warsaw <> getDateRange (nextDay warsaw).
Proof.
  split; intros H; vm_compute in H; discriminate H.
Qed.

(** C9, amended: the encoder and the date window read the clock and the
    time zone of the host, and these with the arguments decide the output:
    two runs of the encoder on the same UTC day, and two runs of the window
    on the same local day, give the same result. *)
Theorem clock_decides_output (env1 env2 : Env) (messages : list RawMsg)
    (channel : jsstring) :
  zone env1 = zone env2 ->
  (Day (clock env1) = Day (clock env2) ->
   formatTranscript env1 messages channel =
   formatTranscript env2 messages channel) /\
  (Day (LocalTime (zone env1) (clock env1)) =
   Day (LocalTime (zone env2) (clock env2)) ->
   getDateRange env1 = getDateRange env2).
Proof.
  intros Htz. split; intros Hday.
  - rewrite !formatTranscript_lines. unfold titleLine.
    rewrite !datePart_toISOString, (isoDate_Day _ _ Hday).
    do 3 f_equal. apply flat_map_ext. intros msg.
    unfold block, msgTime. by rewrite Htz.
  - unfold getDateRange. rewrite <- Htz in *.
    by rewrite (setHours_Day _ 3 0 0 0 _ _ Hday).
Qed.

Lemma clock_decides_output_witness :
  formatTranscript warsaw [bobSaysHi] (u "general") =
    formatTranscript
      {| clock := clock warsaw + 1; zone := europeWarsaw |} [bobSaysHi]
      (u "general") /\
  getDateRange warsaw =
    getDateRange {| clock := clock warsaw + 1; zone := europeWarsaw |}.
Proof.
  split;
    apply (clock_decides_output warsaw
             {| clock := clock warsaw + 1; zone := europeWarsaw |}
             [bobSaysHi] (u "general")); reflexivity.
Defined.

(** * Further properties *)

(** ** Transcripts of contents of several lines *)

Lemma split_app_sep_any c (a b : jsstring) :
  split c (a ++ c :: b) = split c a ++ split c b.
Proof.
  induction a as [|x a IH]; cbn [app split].
  - by rewrite N.eqb_refl.
  - destruct (x =? c); [by rewrite IH|].
    rewrite IH. destruct (split c a) as [|l ls] eqn:E; [|done].
    by destruct a; cbn in E; [|destruct (_ =? _), (split c a)].
Qed.

Lemma split_join_any c (ls : list jsstring) :
  ls <> [] -> split c (join [c] ls) = flat_map (split c) ls.
Proof.
  induction ls as [|l ls IH]; [done|]. intros _.
  destruct ls as [|l' ls].
  - cbn. by rewrite app_nil_r.
  - rewrite join_cons2. cbn [app]. rewrite split_app_sep_any, IH by done.
    done.
Qed.

Lemma lines_text (c : jsstring) :
  flat_map (fun l => LF :: l) (split LF c) = LF :: c.
Proof.
  induction c as [|x c IH]; [done|]. cbn [split].
  destruct (N.eqb_spec x LF) as [->|Hx].
  - cbn [flat_map app]. by rewrite IH.
  - destruct (split LF c) as [|l ls]; [done|].
    cbn [flat_map app] in *. by injection IH as ->.
Qed.

Lemma grow_nonempty (ls : list jsstring) (acc : jsstring) :
  acc <> [] -> fold_left grow ls acc = acc ++ flat_map (fun l => LF :: l) ls.
Proof.
  revert acc; induction ls as [|l ls IH]; intros acc Hacc; cbn [fold_left flat_map].
  - by rewrite app_nil_r.
  - rewrite IH.
    + unfold grow. destruct acc; [done|]. cbn [truthy]. by rewrite <- !app_assoc.
    + unfold grow. by destruct acc.
Qed.

Lemma grow_text (c : jsstring) :
  fold_left grow (split LF c ++ [[]]) [] = decodedText c.
Proof.
  unfold decodedText. induction c as [|x c IH]; [done|]. cbn [split app dropNewlines].
  destruct (N.eqb_spec x LF) as [->|Hx].
  - exact IH.
  - pose proof (lines_text c) as Hc.
    destruct (split LF c) as [|l ls]; [done|].
    cbn [app fold_left]. change (grow [] (x :: l)) with (x :: l).
    rewrite grow_nonempty by done.
    rewrite flat_map_app. cbn [flat_map app] in *. injection Hc as Hc.
    by rewrite <- Hc, <- app_assoc.
Qed.

Lemma parseLine_body ms t a acc (ls : list jsstring) :
  forallb bodyLine ls = true ->
  fold_left parseLine ls (ms, Some {| time := t; author := a; content := acc |}) =
  (ms, Some {| time := t; author := a; content := fold_left grow ls acc |}).
Proof.
  revert acc; induction ls as [|l ls IH]; intros acc; [done|].
  cbn [forallb fold_left]. intros [[Hh Hl]%andb_prop Hls]%andb_prop.
  unfold parseLine at 2. destruct (headerMatch l); [done|].
  rewrite Hl. cbn [time author content]. by apply IH.
Qed.

Lemma headerMatch_title (h : jsstring) :
  startsWith (u "# ") h = true -> headerMatch h = None.
Proof.
  intros H. unfold headerMatch.
  change (u "# ") with [35; 32] in H.
  destruct h as [|a [|b h]]; cbn [startsWith] in H;
    try done; try (by destruct (35 =? a)).
  apply andb_prop in H as [Ha%N.eqb_eq [Hb%N.eqb_eq _]%andb_prop].
  by subst.
Qed.

Lemma flat_map_twice {A B C} (f : B -> list C) (g : A -> list B) (l : list A) :
  flat_map f (flat_map g l) = flat_map (fun x => flat_map f (g x)) l.
Proof.
  induction l as [|x l IH]; [done|].
  cbn [flat_map]. by rewrite flat_map_app, IH.
Qed.

Section Multiline.
Variable env : Env.

Lemma split_block msg :
  headable msg = true ->
  flat_map (split LF) (block env msg) = blockLines env msg.
Proof.
  intros Hh. unfold block, blockLines. cbn [flat_map].
  rewrite app_nil_r.
  assert (singleLine (u "### " ++ msgTime env msg ++ sepDash ++ msgAuthor msg) = true) as Hs.
  { unfold headable in Hh. apply andb_prop in Hh as [[Ht _]%andb_prop Hlt].
    rewrite !singleLine_app, (lineTerminator_singleLine _ Hlt).
    unfold msgTime. destruct (createdAt msg); [|done].
    by rewrite singleLine_time. }
  rewrite (split_no_sep _ _ Hs). done.
Qed.

Lemma parseLine_blockLines msg st :
  readable msg = true ->
  fold_left parseLine (blockLines env msg) st = (flush st, Some (decodedLines env msg)).
Proof.
  intros [Hh Hb]%andb_prop. destruct st as [ms cur].
  unfold blockLines. cbn [fold_left]. unfold parseLine at 3.
  rewrite (headable_heading _ _ Hh).
  unfold parseLine at 2. change (headerMatch []) with (@None (jsstring * jsstring)).
  cbv iota beta. change (startsWith (u "# ") []) with false.
  cbn [negb content time author truthy app].
  rewrite parseLine_body.
  - rewrite grow_text. unfold flush, decodedLines, push. cbn [fst snd].
    f_equal. destruct cur; simpl; [done|]. by rewrite app_nil_r.
  - by rewrite forallb_app, Hb.
Qed.

Lemma parseLine_blocksLines messages st :
  forallb readable messages = true ->
  flush (fold_left parseLine (flat_map (fun m => flat_map (split LF) (block env m)) messages) st) =
  flush st ++ map (decodedLines env) messages.
Proof.
  revert st; induction messages as [|msg messages IH]; intros st;
    cbn [flat_map forallb map fold_left].
  - by rewrite app_nil_r.
  - intros [Hm Hms]%andb_prop.
    rewrite fold_left_app, split_block, parseLine_blockLines, IH; try done.
    + unfold flush at 1. cbn [fst snd option_list]. by rewrite <- app_assoc.
    + by apply andb_prop in Hm as [? _].
Qed.
End Multiline.

Lemma decode_encode_lines (env : Env) (messages : list RawMsg)
    (channel : jsstring) :
  singleLine channel = true ->
  forallb readable messages = true ->
  parseTranscript (formatTranscript env messages channel) =
  map (decodedLines env) messages.
Proof.
  intros Hc Hr.
  rewrite parseTranscript_flush, formatTranscript_lines. unfold parseLoop.
  rewrite split_join_any by done. cbn [flat_map].
  assert (singleLine (titleLine env channel) = true) as Ht.
  { unfold titleLine. rewrite !singleLine_app, Hc.
    by rewrite singleLine_datePart by apply printable_toISOString. }
  rewrite (split_no_sep _ _ Ht). cbn [app split].
  rewrite flat_map_twice.
  cbn [fold_left]. unfold parseLine at 2, parseLine at 1.
  change (headerMatch (titleLine env channel)) with (@None (jsstring * jsstring)).
  change (headerMatch []) with (@None (jsstring * jsstring)).
  cbv iota beta. by rewrite parseLine_blocksLines.
Qed.

Lemma decodedText_spec (c : jsstring) :
  exists (n : nat) (body : jsstring),
    c = repeat LF n ++ body /\ hd_error body <> Some LF /\
    decodedText c = if truthy body then body ++ [LF] else [].
Proof.
  unfold decodedText. induction c as [|x c (n & body & Hc & Hb & Hd)].
  - by exists 0%nat, [].
  - cbn [app dropNewlines]. destruct (N.eqb_spec x LF) as [->|Hx].
    + exists (S n), body. cbn [repeat app]. by rewrite <- Hc.
    + exists 0%nat, (x :: c). cbn [repeat app hd_error truthy].
      repeat split; congruence.
Qed.

(** X1: decoding an encoded transcript gives the messages back in order,
    for contents of any number of lines that are neither headings nor
    begin with ["# "]: time and author as encoded, the content without its
    leading newlines and followed by one newline (empty when only newlines
    are left). *)
Theorem roundtrip_multiline (env : Env) (messages : list RawMsg)
    (channel : jsstring) :
  singleLine channel = true ->
  forallb readable messages = true ->
  parseTranscript (formatTranscript env messages channel) =
    map (decodedLines env) messages /\
  Forall (fun msg =>
            time (decodedLines env msg) = msgTime env msg /\
            author (decodedLines env msg) = msgAuthor msg /\
            exists (n : nat) (body : jsstring),
              msgContent msg = repeat LF n ++ body /\
              hd_error body <> Some LF /\
              content (decodedLines env msg) =
                if truthy body then body ++ [LF] else [])
         messages.
Proof.
  intros Hc Hr. split.
  - by apply decode_encode_lines.
  - apply List.Forall_forall. intros msg _.
    split; [done|]. split; [done|].
    apply decodedText_spec.
Qed.

Lemma roundtrip_multiline_witness :
  parseTranscript (formatTranscript warsaw [twoLines; bobSaysHi] (u "general")) =
  map (decodedLines warsaw) [twoLines; bobSaysHi].
Proof.
  apply (roundtrip_multiline warsaw [twoLines; bobSaysHi] (u "general"));
    vm_compute; reflexivity.
Defined.

(** ** Lines the decoder passes over *)

Lemma parseLine_title st h :
  startsWith (u "# ") h = true -> parseLine st h = st.
Proof.
  intros H. destruct st as [ms cur]. unfold parseLine.
  rewrite (headerMatch_title _ H), H. by destruct cur.
Qed.

Lemma parseLine_preamble (ls : list jsstring) :
  forallb notHeading ls = true ->
  fold_left parseLine ls ([], None) = ([], None).
Proof.
  induction ls as [|l ls IH]; [done|].
  cbn [forallb fold_left]. intros [Hl Hls]%andb_prop.
  unfold parseLine at 2. unfold notHeading in Hl.
  destruct (headerMatch l); [done|]. by apply IH.
Qed.

Lemma parseTranscript_lines (ls : list jsstring) :
  ls <> [] -> forallb singleLine ls = true ->
  parseTranscript (join [LF] ls) = flush (fold_left parseLine ls ([], None)).
Proof.
  intros Hne Hs. rewrite parseTranscript_flush. unfold parseLoop.
  by rewrite split_join.
Qed.

(** X2: a line that begins with ["# "] is passed over wherever it stands,
    in the content of a message too: the transcript with the line decodes
    as the transcript without it. *)
Theorem title_lines_ignored (before after : list jsstring) (h : jsstring) :
  forallb singleLine (before ++ h :: after) = true ->
  startsWith (u "# ") h = true ->
  parseTranscript (join [LF] (before ++ h :: after)) =
  parseTranscript (join [LF] (before ++ after)).
Proof.
  intros Hs Hh.
  rewrite parseTranscript_lines by (done || by destruct before).
  rewrite fold_left_app. cbn [fold_left]. rewrite parseLine_title by done.
  rewrite <- fold_left_app.
  rewrite forallb_app in Hs. cbn [forallb] in Hs.
  apply andb_prop in Hs as [Hb [_ Ha]%andb_prop].
  assert (forallb singleLine (before ++ after) = true) as Hba
    by (by rewrite forallb_app, Hb, Ha).
  destruct (decide (before ++ after = [])) as [E|E].
  - apply app_eq_nil in E as [-> ->]. done.
  - by rewrite parseTranscript_lines.
Qed.

Lemma title_lines_ignored_witness :
  parseTranscript (join [LF] ([bobHeading; u "hi"] ++ u "# notes" :: [u "there"])) =
  parseTranscript (join [LF] ([bobHeading; u "hi"] ++ [u "there"])).
Proof.
  apply (title_lines_ignored [bobHeading; u "hi"] [u "there"] (u "# notes"));
    vm_compute; reflexivity.
Defined.

(** X3: what stands before the first heading is passed over: lines that
    are no headings, put in front of a transcript, do not change what is
    decoded, and a text without any heading decodes to no message. *)
Theorem preamble_ignored (preamble rest : list jsstring) :
  forallb singleLine (preamble ++ rest) = true ->
  forallb notHeading preamble = true ->
  preamble ++ rest <> [] ->
  parseTranscript (join [LF] (preamble ++ rest)) =
  flush (fold_left parseLine rest ([], None)) /\
  (rest <> [] ->
   parseTranscript (join [LF] (preamble ++ rest)) =
   parseTranscript (join [LF] rest)).
Proof.
  intros Hs Hp Hne.
  assert (parseTranscript (join [LF] (preamble ++ rest)) =
          flush (fold_left parseLine rest ([], None))) as H.
  { rewrite parseTranscript_lines by done.
    by rewrite fold_left_app, parseLine_preamble. }
  split; [done|]. intros Hr. rewrite H, parseTranscript_lines; [done..|].
  rewrite forallb_app in Hs. by apply andb_prop in Hs as [_ ?].
Qed.

Lemma preamble_ignored_witness :
  parseTranscript (join [LF] ([u "stray"; []] ++ [bobHeading; u "hi"])) =
  parseTranscript (join [LF] [bobHeading; u "hi"]).
Proof.
  apply (preamble_ignored [u "stray"; []] [bobHeading; u "hi"]);
    first [ vm_compute; reflexivity | discriminate ].
Defined.

(** ** Links *)

Lemma stripPrefix_Some (p s r : jsstring) : stripPrefix p s = Some r -> s = p ++ r.
Proof.
  revert s; induction p as [|a p IH]; intros [|b s]; cbn [stripPrefix app];
    try done.
  - by intros [= ->].
  - by intros [= ->].
  - destruct (N.eqb_spec a b); [|done].
    subst; intros H; f_equal; auto.
Qed.

Lemma includes_cons p x s : includes p s = true -> includes p (x :: s) = true.
Proof. intros H. cbn [includes]. rewrite H. apply orb_true_r. Qed.

Lemma includes_app_r p l s : includes p s = true -> includes p (l ++ s) = true.
Proof. intros H. induction l as [|x l IH]; [done|]. by apply includes_cons. Qed.

Lemma includes_startsWith p s : startsWith p s = true -> includes p s = true.
Proof. intros H. destruct s; cbn [includes]; by rewrite H. Qed.

Lemma startsWith_app_l p q s : startsWith (p ++ q) s = true -> startsWith p s = true.
Proof.
  revert s; induction p as [|a p IH]; intros s; [done|].
  destruct s as [|x s]; [done|]. cbn [app startsWith].
  intros [-> H]%andb_prop. cbn [andb]. by apply IH.
Qed.

Lemma includes_app_l p q s : includes (p ++ q) s = true -> includes p s = true.
Proof.
  induction s as [|x s IH]; cbn [includes].
  - intros H%orb_prop. destruct H as [H|H]; [|done].
    by rewrite (startsWith_app_l _ _ _ H).
  - intros H%orb_prop. destruct H as [H|H].
    + by rewrite (startsWith_app_l _ _ _ H).
    + rewrite (IH H). apply orb_true_r.
Qed.

Lemma urlBody_chars s : forallb urlChar (urlBody s) = true.
Proof.
  induction s as [|c s IH]; [done|]. cbn [urlBody].
  destruct (isSpace c || (c =? 41)) eqn:E; [done|].
  cbn [forallb]. unfold urlChar at 1. by rewrite E, IH.
Qed.

Lemma urlBody_prefix s : startsWith (urlBody s) s = true.
Proof.
  induction s as [|c s IH]; [done|]. cbn [urlBody].
  destruct (isSpace c || (c =? 41)); [done|].
  cbn [startsWith]. by rewrite N.eqb_refl, IH.
Qed.

Lemma startsWith_app_both p q s :
  startsWith q s = true -> startsWith (p ++ q) (p ++ s) = true.
Proof.
  intros H. induction p as [|a p IH]; [done|].
  cbn [app startsWith]. by rewrite N.eqb_refl, IH.
Qed.

Lemma urlAt_scheme (pre r m : jsstring) :
  (if truthy (urlBody r) then Some (pre ++ urlBody r) else None) = Some m ->
  m = pre ++ urlBody r /\ urlBody r <> [].
Proof.
  destruct (urlBody r) as [|c b]; [done|]. cbn [truthy].
  intros H. injection H as <-. done.
Qed.

Lemma urlAt_Some s m :
  urlAt s = Some m ->
  (exists body,
     (m = u "http://" ++ body \/ m = u "https://" ++ body) /\
     body <> [] /\ forallb urlChar body = true) /\
  startsWith m s = true.
Proof.
  unfold urlAt.
  destruct (stripPrefix (u "http") s) as [r|] eqn:E1; [|done].
  apply stripPrefix_Some in E1 as ->.
  destruct (stripPrefix (u "s://") r) as [r'|] eqn:E2.
  - apply stripPrefix_Some in E2 as ->.
    intros [-> Hne]%urlAt_scheme. split.
    + exists (urlBody r'). split; [by right|]. split; [done|].
      apply urlBody_chars.
    + replace (u "http" ++ u "s://" ++ r') with (u "https://" ++ r')
        by reflexivity.
      apply startsWith_app_both, urlBody_prefix.
  - destruct (stripPrefix (u "://") r) as [r'|] eqn:E3; [|done].
    apply stripPrefix_Some in E3 as ->.
    intros [-> Hne]%urlAt_scheme. split.
    + exists (urlBody r'). split; [by left|]. split; [done|].
      apply urlBody_chars.
    + replace (u "http" ++ u "://" ++ r') with (u "http://" ++ r')
        by reflexivity.
      apply startsWith_app_both, urlBody_prefix.
Qed.

Lemma matchUrls_In s : forall skip m,
  In m (matchUrls skip s) ->
  (exists body,
     (m = u "http://" ++ body \/ m = u "https://" ++ body) /\
     body <> [] /\ forallb urlChar body = true) /\
  includes m s = true.
Proof.
  induction s as [|x s IH]; intros skip m; [done|].
  cbn [matchUrls]. destruct skip as [|k].
  - destruct (urlAt (x :: s)) as [m'|] eqn:E.
    + intros [<-|H].
      * destruct (urlAt_Some _ _ E) as [Hm Hs]. split; [done|].
        by apply includes_startsWith.
      * destruct (IH _ _ H) as [Hm Hs]. split; [done|]. by apply includes_cons.
    + intros H. destruct (IH _ _ H) as [Hm Hs]. split; [done|].
      by apply includes_cons.
  - intros H. destruct (IH _ _ H) as [Hm Hs]. split; [done|].
    by apply includes_cons.
Qed.

Section LowerAscii.
Variable lowerNonAscii : jsstring -> nat -> jsstring.

Lemma startsWith_lowerFrom_ascii whole p :
  forallb lowerCased p = true ->
  forall s i, startsWith p s = true ->
    startsWith p (lowerFrom lowerNonAscii whole i s) = true.
Proof.
  induction p as [|a p IH]; [done|].
  cbn [forallb]. intros [[Ha Hfix%N.eqb_eq]%andb_prop Hp]%andb_prop s i.
  destruct s as [|x s]; [done|]. cbn [startsWith lowerFrom].
  intros [<-%N.eqb_eq Hs]%andb_prop.
  rewrite Ha. cbn [app startsWith]. by rewrite Hfix, N.eqb_refl, IH.
Qed.

Lemma includes_lowerFrom_ascii whole p :
  forallb lowerCased p = true ->
  forall s i, includes p s = true ->
    includes p (lowerFrom lowerNonAscii whole i s) = true.
Proof.
  intros Hp s. induction s as [|x s IH]; intros i.
  - done.
  - cbn [includes]. intros H%orb_prop. destruct H as [H|H].
    + apply includes_startsWith. by apply startsWith_lowerFrom_ascii.
    + cbn [lowerFrom]. by apply includes_app_r, IH.
Qed.

(** Lower-case ASCII text found in a string is found in its lower case. *)
Lemma includes_toLowerCase_ascii p s :
  forallb lowerCased p = true -> includes p s = true ->
  includes p (toLowerCase lowerNonAscii s) = true.
Proof. intros Hp Hs. by apply includes_lowerFrom_ascii. Qed.

Lemma linksOf_http (m : Message) :
  linksOf m <> [] -> includes (u "http") (content m) = true.
Proof.
  unfold linksOf. destruct (matchUrls 0 (content m)) as [|url urls] eqn:E; [done|].
  intros _.
  destruct (matchUrls_In (content m) 0 url) as [(body & Hu & _) Hin].
  { rewrite E. by left. }
  destruct Hu as [-> | ->].
  - by apply (includes_app_l (u "http") (u "://" ++ body)).
  - by apply (includes_app_l (u "http") (u "s://" ++ body)).
Qed.

Lemma linked_not_question (m : Message) :
  linkless m = false ->
  isQuestion (toLowerCase lowerNonAscii (content m)) = false.
Proof.
  intros H. unfold isQuestion.
  rewrite (includes_toLowerCase_ascii (u "http")); [apply andb_false_r|done|].
  apply linksOf_http. unfold linkless in H. by destruct (linksOf m).
Qed.
End LowerAscii.

(** X4: every link recorded comes from a message of the channel, under
    the author of that message; it is a piece of the content that starts
    with [http://] or [https://] and goes on with at least one character,
    none of them white space or a closing parenthesis. *)
Theorem links_wellformed (lowerNonAscii : jsstring -> nat -> jsstring)
    (messages : list Message) (channel : jsstring) (l : Link.t) :
  In l (links (summarizeChannel lowerNonAscii messages channel)) ->
  exists m body,
    In m messages /\ Link.who l = author m /\
    (Link.url l = u "http://" ++ body \/ Link.url l = u "https://" ++ body) /\
    body <> [] /\ forallb urlChar body = true /\
    includes (Link.url l) (content m) = true.
Proof.
  rewrite summarizeChannel_lists. cbn [links].
  intros (m & Hm & Hl)%in_flat_map.
  unfold linksOf in Hl. apply in_map_iff in Hl as (url & <- & Hurl).
  destruct (matchUrls_In _ _ _ Hurl) as [(body & Hb & Hne & Hc) Hin].
  exists m, body. cbn [Link.who Link.url]. by repeat split.
Qed.

Lemma links_wellformed_witness :
  exists m body,
    In m [searchMsg] /\ u "bob" = author m /\
    (u "https://x.com/search?q=1" = u "http://" ++ body \/
     u "https://x.com/search?q=1" = u "https://" ++ body) /\
    body <> [] /\ forallb urlChar body = true /\
    includes (u "https://x.com/search?q=1") (content m) = true.
Proof.
  apply (links_wellformed keepNonAscii [searchMsg] (u "general")
           {| Link.who := u "bob"; Link.url := u "https://x.com/search?q=1" |}).
  vm_compute. left. reflexivity.
Defined.

(** X5: excerpts are bounded: a decision or an action keeps at most 200
    code units of the content and a question at most 150, each under the
    author of one of the messages. *)
Theorem excerpt_bounds (lowerNonAscii : jsstring -> nat -> jsstring)
    (messages : list Message) (channel : jsstring) :
  let summary := summarizeChannel lowerNonAscii messages channel in
  let bounded n (d : Signal) :=
    (length (what d) <= n)%nat /\ In (who d) (List.map author messages) in
  Forall (bounded 200%nat) (decisions summary) /\
  Forall (bounded 200%nat) (actions summary) /\
  Forall (bounded 150%nat) (questions summary).
Proof.
  intros summary bounded. subst summary.
  rewrite summarizeChannel_lists. cbn [decisions actions questions].
  assert (forall (f : Message -> bool) n g,
    (forall m, who (g m) = author m /\ (length (what (g m)) <= n)%nat) ->
    Forall (bounded n) (List.map g (List.filter f messages))) as H.
  { intros f n g Hg. apply List.Forall_forall.
    intros d (m & <- & [Hm _]%filter_In)%in_map_iff.
    destruct (Hg m) as [Hw Hl]. split; [done|].
    rewrite Hw. by apply in_map. }
  repeat split; apply H; intros m; (split; [done|]);
    unfold excerptOf, questionOf; cbn [what];
    [change 200%Z with (Z.of_nat 200) | change 200%Z with (Z.of_nat 200)
    | change 150%Z with (Z.of_nat 150)];
    rewrite slice_take, length_take; lia.
Qed.

(** X6: a message that gives a link is never recorded as a question: the
    questions of a channel are those of its messages without link. *)
Theorem links_never_questions (lowerNonAscii : jsstring -> nat -> jsstring)
    (messages : list Message) (channel : jsstring) :
  questions (summarizeChannel lowerNonAscii messages channel) =
  questions (summarizeChannel lowerNonAscii
               (List.filter linkless messages) channel).
Proof.
  rewrite !summarizeChannel_lists. cbn [questions]. f_equal.
  induction messages as [|m messages IH]; [done|].
  cbn [List.filter]. destruct (linkless m) eqn:E.
  - cbn [List.filter]. by rewrite IH.
  - by rewrite (linked_not_question lowerNonAscii m E).
Qed.

(** ** Sections of a summary *)

Lemma in_sectionLines (t x : jsstring) (bs : list jsstring) :
  In x (sectionLines t bs) -> x = t \/ x = [] \/ In x bs.
Proof.
  destruct bs as [|b bs]; [done|]. cbn [sectionLines].
  intros [<-|[<-|H]]; auto.
  apply in_app_or in H as [H|[<-|[]]]; auto.
Qed.

Lemma sectionLines_title (t : jsstring) (bs : list jsstring) :
  bs <> [] -> In t (sectionLines t bs).
Proof. destruct bs; [done|]. intros _. by left. Qed.

Lemma bullets_nonempty {A} (f : A -> jsstring) (n : nat) (l : list A) :
  (0 < n)%nat -> List.map f (take n l) <> [] <-> l <> [].
Proof. intros Hn. destruct l, n; cbn; try done; lia. Qed.

Lemma bullet_dash {A} (f : A -> jsstring) (l : list A) (x : jsstring) :
  (forall a, startsWith (u "- ") (f a) = true) ->
  In x (List.map f l) -> startsWith (u "- ") x = true.
Proof. intros Hf (a & <- & _)%in_map_iff. apply Hf. Qed.

Lemma length_sectionLines (t : jsstring) (bs : list jsstring) :
  (length (sectionLines t bs) <= length bs + 3)%nat.
Proof. destruct bs; cbn [sectionLines length]; [lia|]. rewrite length_app. cbn. lia. Qed.

Lemma dash_not_hash (x : jsstring) :
  startsWith (u "## ") x = true -> startsWith (u "- ") x = true -> False.
Proof.
  destruct x as [|a x]; [done|].
  change (u "## ") with [35; 35; 32]. change (u "- ") with [45; 32].
  cbn [startsWith].
  intros [Ha%N.eqb_eq _]%andb_prop [Hb%N.eqb_eq _]%andb_prop. by subst.
Qed.

(** X7: a section heading stands in the summary exactly when its category
    has an entry: an empty category leaves no heading behind. *)
Theorem section_headings (channel : jsstring) (messages : list Message)
    (summary : Summary) :
  let lines := summaryLines channel messages summary in
  (In (u "## Key Decisions") lines <-> decisions summary <> []) /\
  (In (u "## Action Items") lines <-> actions summary <> []) /\
  (In (u "## Links Shared") lines <-> links summary <> []) /\
  (In (u "## Open Questions") lines <-> questions summary <> []).
Proof.
  intros lines. subst lines. rewrite summaryLines_sections.
  assert (forall a, startsWith (u "- ") (bulletSignal a) = true) as Hs by done.
  assert (forall a, startsWith (u "- ") (bulletLink a) = true) as Hl by done.
  assert (forall a, startsWith (u "- ") (bulletQuestion a) = true) as Hq by done.
  assert (forall t x bs,
    startsWith (u "## ") x = true ->
    (forall b, In b bs -> startsWith (u "- ") b = true) ->
    In x (sectionLines t bs) -> x = t /\ bs <> []) as Hsec.
  { intros t x bs Hx Hbs Hin. split; [|by destruct bs].
    apply in_sectionLines in Hin as [->|[->|Hin]]; [done|done|].
    apply Hbs in Hin. destruct (dash_not_hash _ Hx Hin). }
  assert (forall x, startsWith (u "## ") x = true ->
    ~ In x (preambleLines channel messages)) as Hpre.
  { intros x Hx [<-|[<-|[<-|[<-|[<-|[<-|[]]]]]]]; done. }
  assert (forall t x bs c,
    startsWith (u "## ") x = true ->
    (forall b, In b bs -> startsWith (u "- ") b = true) ->
    (x = t -> bs <> [] -> c) ->
    In x (sectionLines t bs) -> c) as Hcase.
  { intros t x bs c Hx Hbs Hc Hin.
    destruct (Hsec t x bs Hx Hbs Hin). auto. }
  repeat split.
  all: try (intros Hne; rewrite !in_app_iff).
  all: try (intros Hin; rewrite !in_app_iff in Hin;
            destruct Hin as [Hin|[Hin|[Hin|[Hin|Hin]]]];
            [ by apply Hpre in Hin | revert Hin; apply Hcase; [done| |] .. ];
            try (intros b; by apply bullet_dash);
            intros Heq Hb;
            first [ by apply bullets_nonempty in Hb; [|lia]
                  | vm_compute in Heq; discriminate Heq ]).
  - right; left. apply sectionLines_title, bullets_nonempty; [lia|done].
  - right; right; left. apply sectionLines_title, bullets_nonempty; [lia|done].
  - right; right; right; left. apply sectionLines_title, bullets_nonempty; [lia|done].
  - right; right; right; right. apply sectionLines_title, bullets_nonempty; [lia|done].
Qed.

(** X8: the summary is bounded whatever the size of the channel: between
    6 and 43 lines are pushed, the six lines of the preamble first. *)
Theorem summary_bounded (channel : jsstring) (messages : list Message)
    (summary : Summary) :
  let lines := summaryLines channel messages summary in
  (6 <= length lines <= 43)%nat /\
  take 6 lines = preambleLines channel messages.
Proof.
  intros lines. subst lines. rewrite summaryLines_sections. split.
  - rewrite !length_app.
    pose proof (length_sectionLines (u "## Key Decisions")
                  (List.map bulletSignal (take 5 (decisions summary)))).
    pose proof (length_sectionLines (u "## Action Items")
                  (List.map bulletSignal (take 5 (actions summary)))).
    pose proof (length_sectionLines (u "## Links Shared")
                  (List.map bulletLink (take 10 (links summary)))).
    pose proof (length_sectionLines (u "## Open Questions")
                  (List.map bulletQuestion (take 5 (questions summary)))).
    rewrite !length_map, !length_take in *.
    change (length (preambleLines channel messages)) with 6%nat. lia.
  - done.
Qed.

(** ** What the collector writes *)

Section CollectorWrites.
Variable httpGet : jsstring -> HttpOutcome.
Variables (env : Env) (after before : jsstring).

Lemma collectChannel_lookup (dir : gmap jsstring jsstring) (c file : jsstring) :
  collectChannel httpGet env after before dir c !! file =
  if bool_decide (file = c ++ u ".md")
  then transcriptOf httpGet env after before c (dir !! file)
  else dir !! file.
Proof.
  unfold collectChannel, transcriptOf.
  destruct (fetchMessages _ _ _ _) as [|response]; [by case_bool_decide|].
  destruct (responseMessages response) as [messages|]; [|by case_bool_decide].
  destruct (length messages =? 0)%nat; [by case_bool_decide|].
  case_bool_decide as E.
  - subst. apply lookup_insert_eq.
  - by apply lookup_insert_ne.
Qed.

Lemma channelOf_None (channels : list jsstring) (c : jsstring) :
  ~ In c channels -> channelOf channels (c ++ u ".md") = None.
Proof.
  intros Hin. unfold channelOf.
  match goal with |- List.find ?f _ = _ =>
    destruct (List.find f channels) as [ch|] eqn:E; [|done] end.
  apply find_some in E as [Hch Heq%bool_decide_eq_true].
  apply md_inj in Heq as ->. done.
Qed.

Lemma collectChannels_lookup (channels : list jsstring)
    (dir : gmap jsstring jsstring) (file : jsstring) :
  List.NoDup channels ->
  fold_left (collectChannel httpGet env after before) channels dir !! file =
  match channelOf channels file with
  | Some c => transcriptOf httpGet env after before c (dir !! file)
  | None => dir !! file
  end.
Proof.
  intros Hnd. revert dir. induction Hnd as [|c channels Hc Hnd IH]; intros dir;
    [done|].
  cbn [fold_left]. rewrite IH, collectChannel_lookup.
  unfold channelOf at 2. cbn [List.find]. fold (channelOf channels file).
  case_bool_decide as E; [|done].
  subst file. by rewrite channelOf_None.
Qed.

Lemma transcriptOf_idem (c : jsstring) (old : option jsstring) :
  transcriptOf httpGet env after before c
    (transcriptOf httpGet env after before c old) =
  transcriptOf httpGet env after before c old.
Proof.
  unfold transcriptOf.
  destruct (fetchMessages _ _ _ _) as [|response]; [done|].
  destruct (responseMessages response) as [messages|]; [|done].
  by destruct (length messages =? 0)%nat.
Qed.
End CollectorWrites.

Lemma NoDup_CHANNELS : List.NoDup CHANNELS.
Proof.
  apply NoDup_ListNoDup.
  apply (bool_decide_unpack _). vm_compute. reflexivity.
Qed.

Lemma channelOf_In (channels : list jsstring) (c : jsstring) :
  In c channels -> List.NoDup channels ->
  channelOf channels (c ++ u ".md") = Some c.
Proof.
  intros Hin Hnd. unfold channelOf.
  match goal with |- List.find ?f _ = _ =>
    destruct (List.find f channels) as [ch|] eqn:E end.
  - apply find_some in E as [_ Heq%bool_decide_eq_true].
    by apply md_inj in Heq as ->.
  - exfalso. apply (find_none _ _ E) in Hin.
    by rewrite bool_decide_eq_true_2 in Hin.
Qed.

(** The files of the day directory after the collector has run. *)
Lemma collectorMain_lookup (httpGet : jsstring -> HttpOutcome) (env : Env)
    (root : gmap jsstring (gmap jsstring jsstring)) (file : jsstring) :
  let r := getDateRange env in
  readFile (collectorMain httpGet env root) (dateStr r) file =
  match channelOf CHANNELS file with
  | Some c =>
      transcriptOf httpGet env (after r) (before r) c
        (readFile root (dateStr r) file)
  | None => readFile root (dateStr r) file
  end.
Proof.
  intros r. unfold readFile, collectorMain. fold r.
  rewrite lookup_insert_eq, collectChannels_lookup by apply NoDup_CHANNELS.
  by destruct (root !! dateStr r).
Qed.



(** X10: the collector touches nothing but the six channel files of the
    day directory of its label: the other directories and the other files
    of that directory are as before. *)
Theorem collector_frame (httpGet : jsstring -> HttpOutcome) (env : Env)
    (root : gmap jsstring (gmap jsstring jsstring)) :
  let r := getDateRange env in
  (forall day, day <> dateStr r ->
     collectorMain httpGet env root !! day = root !! day) /\
  (forall file,
     (forall c, In c CHANNELS -> file <> c ++ u ".md") ->
     readFile (collectorMain httpGet env root) (dateStr r) file =
     readFile root (dateStr r) file).
Proof.
  intros r. split.
  - intros day Hd. unfold collectorMain. fold r. by rewrite lookup_insert_ne.
  - intros file Hfile. rewrite collectorMain_lookup. fold r.
    destruct (channelOf CHANNELS file) as [c|] eqn:E; [|done].
    apply find_some in E as [Hc Heq%bool_decide_eq_true].
    by destruct (Hfile c Hc).
Qed.

Lemma collector_frame_witness :
  collectorMain busyApi warsaw ∅ !! u "2024-03-13" =
    (∅ : gmap jsstring (gmap jsstring jsstring)) !! u "2024-03-13" /\
  readFile (collectorMain busyApi warsaw ∅)
           (dateStr (getDateRange warsaw)) (u "notes.txt") =
  readFile ∅ (dateStr (getDateRange warsaw)) (u "notes.txt").
Proof.
  split.
  - apply (proj1 (collector_frame busyApi warsaw ∅)).
    intros H. vm_compute in H. discriminate H.
  - apply (proj2 (collector_frame busyApi warsaw ∅)).
    intros c Hc H. vm_compute in Hc.
    destruct Hc as [<-|[<-|[<-|[<-|[<-|[<-|[]]]]]]];
      vm_compute in H; discriminate H.
Defined.

(** X11: a channel whose fetch fails (transport error, a status other
    than 200, a body that is not JSON) or whose answer holds no list of
    messages keeps the file it had; the failure stays with that channel. *)
Theorem collector_failure_isolated (httpGet : jsstring -> HttpOutcome)
    (env : Env) (root : gmap jsstring (gmap jsstring jsstring))
    (channel : jsstring) :
  let r := getDateRange env in
  fetchMessages httpGet channel (after r) (before r) = Rejected \/
  fetchMessages httpGet channel (after r) (before r) =
    Resolved (RespObject None) ->
  readFile (collectorMain httpGet env root) (dateStr r) (channel ++ u ".md") =
  readFile root (dateStr r) (channel ++ u ".md").
Proof.
  intros r Hf. rewrite collectorMain_lookup. fold r.
  destruct (channelOf CHANNELS (channel ++ u ".md")) as [c|] eqn:E; [|done].
  apply find_some in E as [_ Heq%bool_decide_eq_true].
  apply md_inj in Heq as <-.
  unfold transcriptOf. by destruct Hf as [-> | ->].
Qed.

Lemma collector_failure_isolated_witness :
  readFile (collectorMain deadApi warsaw ∅)
           (dateStr (getDateRange warsaw)) (u "general" ++ u ".md") =
  readFile ∅ (dateStr (getDateRange warsaw)) (u "general" ++ u ".md").
Proof.
  apply (collector_failure_isolated deadApi warsaw ∅ (u "general")).
  left. reflexivity.
Defined.

(** X12: a second run of the collector at the same clock reading with the
    same answers of the API changes nothing: every file is written whole. *)
Theorem collector_idempotent (httpGet : jsstring -> HttpOutcome) (env : Env)
    (root : gmap jsstring (gmap jsstring jsstring)) :
  collectorMain httpGet env (collectorMain httpGet env root) =
  collectorMain httpGet env root.
Proof.
  unfold collectorMain. set (r := getDateRange env).
  rewrite lookup_insert_eq.
  match goal with |- context [default ∅ (Some ?d)] =>
    change (default ∅ (Some d)) with d end.
  rewrite insert_insert_eq. f_equal.
  apply map_eq. intros file.
  rewrite !collectChannels_lookup by apply NoDup_CHANNELS.
  destruct (channelOf CHANNELS file); [|done]. apply transcriptOf_idem.
Qed.

(** ** What the summarizer writes *)

Section SummarizerWrites.
Variable lowerNonAscii : jsstring -> nat -> jsstring.
Variable logsDir : gmap jsstring jsstring.

Lemma summarizeFiles_lookup (out : gmap jsstring jsstring) (file : jsstring) :
  fold_left (summarizeFile lowerNonAscii logsDir)
    (List.filter (endsWith (u ".md")) (readdirSync logsDir)) out !! file =
  summaryAt lowerNonAscii logsDir file (out !! file).
Proof.
  unfold summaryAt.
  destruct (logsDir !! file) as [content|] eqn:Hc.
  - destruct (endsWith (u ".md") file) eqn:He.
    + destruct (readdirSync_md logsDir file content Hc He) as [Hnd Hin].
      by apply summarizeFiles_self.
    + apply summarizeFiles_other. by intros [_ ?]%filter_In; congruence.
  - apply summarizeFiles_other. intros [Hin _]%filter_In.
    apply list_elem_of_In in Hin. unfold readdirSync in Hin.
    apply list_elem_of_fmap in Hin as ([f c] & -> & Hin).
    apply elem_of_map_to_list in Hin. cbn in Hc. congruence.
Qed.

Lemma summaryAt_idem (file : jsstring) (old : option jsstring) :
  summaryAt lowerNonAscii logsDir file
    (summaryAt lowerNonAscii logsDir file old) =
  summaryAt lowerNonAscii logsDir file old.
Proof.
  unfold summaryAt, summaryOf. destruct (logsDir !! file); [|done].
  destruct (endsWith _ _); [|done]. by destruct (_ <? _)%nat.
Qed.
End SummarizerWrites.

(** The files of the day directory after the summarizer has run. *)
Lemma summarizerMain_lookup (lowerNonAscii : jsstring -> nat -> jsstring)
    (argv2 : option jsstring) (env : Env)
    (logs summaries : gmap jsstring (gmap jsstring jsstring))
    (logsDir : gmap jsstring jsstring) (file : jsstring) :
  let day := getTargetDate argv2 env in
  logs !! day = Some logsDir ->
  readFile (summarizerMain lowerNonAscii argv2 env logs summaries) day file =
  summaryAt lowerNonAscii logsDir file (readFile summaries day file).
Proof.
  intros day Hl. unfold readFile, summarizerMain. fold day.
  rewrite Hl, lookup_insert_eq, summarizeFiles_lookup.
  by destruct (summaries !! day).
Qed.

(** X13: when its target day is a plain directory name, one [path.join]
    appends as it is, the summarizer touches only the directory of that day,
    and there only the names of the transcripts: without a logs directory
    for the day nothing changes at all, and otherwise the other directories
    and the files that are no [.md] file of the logs directory are as
    before. (An argument with a separator or a dot segment names another
    directory, which the trees of day directories do not show.) *)
Theorem summarizer_frame (lowerNonAscii : jsstring -> nat -> jsstring)
    (argv2 : option jsstring) (env : Env)
    (logs summaries : gmap jsstring (gmap jsstring jsstring)) :
  let day := getTargetDate argv2 env in
  let after := summarizerMain lowerNonAscii argv2 env logs summaries in
  plainName day = true ->
  (logs !! day = None -> after = summaries) /\
  (forall other, other <> day -> after !! other = summaries !! other) /\
  (forall logsDir file,
     logs !! day = Some logsDir ->
     logsDir !! file = None \/ endsWith (u ".md") file = false ->
     readFile after day file = readFile summaries day file).
Proof.
  intros day after Hplain. subst after. repeat split.
  - intros Hl. unfold summarizerMain. fold day. by rewrite Hl.
  - intros other Ho. unfold summarizerMain. fold day.
    destruct (logs !! day); [|done]. by rewrite lookup_insert_ne.
  - intros logsDir file Hl Hfile. subst day.
    rewrite (summarizerMain_lookup _ _ _ _ _ logsDir) by done.
    unfold summaryAt. destruct (logsDir !! file); [|done].
    destruct Hfile as [?| ->]; done.
Qed.

Lemma summarizer_frame_witness :
  summarizerMain keepNonAscii (Some (u "2024-03-13")) warsaw
    (oneLog threeMessages) ∅ = ∅.
Proof.
  apply (summarizer_frame keepNonAscii (Some (u "2024-03-13")) warsaw
           (oneLog threeMessages) ∅); vm_compute; reflexivity.
Defined.

(** X14: a second run of the summarizer on the same logs changes nothing:
    every summary is written whole from its transcript. *)
Theorem summarizer_idempotent (lowerNonAscii : jsstring -> nat -> jsstring)
    (argv2 : option jsstring) (env : Env)
    (logs summaries : gmap jsstring (gmap jsstring jsstring)) :
  summarizerMain lowerNonAscii argv2 env logs
    (summarizerMain lowerNonAscii argv2 env logs summaries) =
  summarizerMain lowerNonAscii argv2 env logs summaries.
Proof.
  unfold summarizerMain. set (day := getTargetDate argv2 env).
  destruct (logs !! day) as [logsDir|]; [|done].
  rewrite lookup_insert_eq.
  match goal with |- context [default ∅ (Some ?d)] =>
    change (default ∅ (Some d)) with d end.
  rewrite insert_insert_eq. f_equal.
  apply map_eq. intros file.
  rewrite !summarizeFiles_lookup. apply summaryAt_idem.
Qed.

Section Days.

Local Open Scope Z_scope.

(** ** Labels of days *)

Lemma era_day_bounds doe :
  0 <= doe < 146097 ->
  let yoe := (doe - doe / 1460 + doe / 36524 - doe / 146096) / 365 in
  let doy := doe - (365 * yoe + yoe / 4 - yoe / 100) in
  let mp := (5 * doy + 2) / 153 in
  1 <= doy - (153 * mp + 2) / 5 + 1 <= 31.
Proof.
  intros H yoe doy mp. subst mp doy yoe. (Z.div_mod_to_equations; lia).
Qed.

Lemma civil_bounds z :
  1 <= (civilFromDays z).1.2 <= 12 /\ 1 <= (civilFromDays z).2 <= 31.
Proof.
  unfold civilFromDays.
  set (era := (z + 719468) / 146097).
  set (doe := z + 719468 - era * 146097).
  assert (0 <= doe < 146097) as Hdoe.
  { subst doe era. Z.div_mod_to_equations; lia. }
  pose proof (era_bounds doe Hdoe) as [_ Hmp].
  pose proof (era_day_bounds doe Hdoe) as Hd.
  cbv zeta in Hmp, Hd. cbn [fst snd]. split; [|exact Hd].
  destruct (_ <? 10) eqn:E; [apply Z.ltb_lt in E|apply Z.ltb_ge in E]; lia.
Qed.

Lemma year_bounds z :
  0 <= z <= 2932896 -> 1970 <= (civilFromDays z).1.1 <= 9999.
Proof.
  intros Hz. unfold civilFromDays. cbn [fst snd].
  set (era := (z + 719468) / 146097).
  set (doe := z + 719468 - era * 146097).
  assert (0 <= doe < 146097) as Hdoe.
  { subst doe era. Z.div_mod_to_equations; lia. }
  pose proof (era_bounds doe Hdoe) as [Hyoe Hmp]. cbv zeta in Hyoe, Hmp.
  assert (4 <= era <= 24) as Hera.
  { subst era. Z.div_mod_to_equations; lia. }
  destruct (Z.eq_dec era 4) as [E4|E4]; destruct (Z.eq_dec era 24) as [E24|E24].
  - lia.
  - (destruct (_ <=? 2) eqn:Em; [apply Z.leb_le in Em|apply Z.leb_gt in Em];
      destruct (_ <? 10) eqn:Ep in Em;
      [apply Z.ltb_lt in Ep|apply Z.ltb_ge in Ep|apply Z.ltb_lt in Ep|apply Z.ltb_ge in Ep];
      subst doe; rewrite E4 in *; Z.div_mod_to_equations; lia).
  - (destruct (_ <=? 2) eqn:Em; [apply Z.leb_le in Em|apply Z.leb_gt in Em];
      destruct (_ <? 10) eqn:Ep in Em;
      [apply Z.ltb_lt in Ep|apply Z.ltb_ge in Ep|apply Z.ltb_lt in Ep|apply Z.ltb_ge in Ep];
      subst doe; rewrite E24 in *; Z.div_mod_to_equations; lia).
  - destruct (_ <=? 2); lia.
Qed.

Lemma digit_inj a b : 0 <= a -> 0 <= b -> digit a = digit b -> a = b.
Proof. unfold digit. lia. Qed.

Lemma fourDigitYears_year t :
  fourDigitYears t -> 1970 <= YearFromTime t <= 9999.
Proof.
  intros Ht. apply year_bounds. unfold fourDigitYears, Day, msPerDay in *.
  Z.div_mod_to_equations; lia.
Qed.

(** The date texts of two instants are the same only on the same day. *)
Lemma isoDate_inj t1 t2 :
  fourDigitYears t1 -> fourDigitYears t2 ->
  isoDate t1 = isoDate t2 -> Day t1 = Day t2.
Proof.
  intros H1%fourDigitYears_year H2%fourDigitYears_year.
  unfold isoDate, isoYear, YearFromTime, MonthFromTime, DateFromTime in *.
  destruct (civil_bounds (Day t1)) as [Hm1 Hd1].
  destruct (civil_bounds (Day t2)) as [Hm2 Hd2].
  pose proof (MakeDay_civilFromDays (Day t1) (civilFromDays (Day t1)).2) as E1.
  pose proof (MakeDay_civilFromDays (Day t2) (civilFromDays (Day t2)).2) as E2.
  destruct (civilFromDays (Day t1)) as [[y1 m1] d1].
  destruct (civilFromDays (Day t2)) as [[y2 m2] d2].
  cbn [fst snd] in *.
  assert ((0 <=? y1) && (y1 <=? 9999) = true) as -> by lia.
  assert ((0 <=? y2) && (y2 <=? 9999) = true) as -> by lia.
  unfold pad4, pad3, pad2. cbn [app].
  intros H. injection H as Ha Hb Hc Hd He Hf Hg Hh.
  apply digit_inj in Ha, Hb, Hc, Hd, He, Hf, Hg, Hh;
    try (Z.div_mod_to_equations; lia).
  assert (y1 = y2) as -> by (Z.div_mod_to_equations; lia).
  assert (m1 = m2) as -> by (Z.div_mod_to_equations; lia).
  assert (d1 = d2) as -> by (Z.div_mod_to_equations; lia).
  lia.
Qed.

(** ** The window from one day to the next *)

Lemma isoDate_dayText t : isoDate t = dayText (Day t).
Proof.
  apply isoDate_Day. unfold dayText. symmetry. apply Day_MakeDate.
  by vm_compute.
Qed.

(** X15: the window runs from 03:45 local time of the day before the local
    day of the clock to 03:00 local time of that day, each read with the
    offset the zone gives it. It is 23 hours and 15 minutes long when the
    two offsets agree and shorter or longer by the change between them
    otherwise; the window of the next local day begins 45 minutes after
    this one ends, up to the change of the offset between 03:00 and 03:45,
    so without such a change the messages between 03:00 and 03:45 local
    time fall in no window. *)
Theorem window_length_and_gap (env env' : Env) :
  let z := zone env in
  let today := Day (LocalTime z (clock env)) in
  let offsetAfter := z (MakeDate (today - 1) (MakeTime 3 45 0 0)) false in
  let offsetBefore := z (MakeDate today (MakeTime 3 0 0 0)) false in
  let offsetNext := z (MakeDate today (MakeTime 3 45 0 0)) false in
  let a := afterInstant env in
  let b := beforeInstant env in
  let a' := afterInstant env' in
  keepsWindowDays env = true -> keepsWindowDays env' = true ->
  zone env' = z -> Day (LocalTime z (clock env')) = today + 1 ->
  (after (getDateRange env) = toISOString a /\
   before (getDateRange env) = toISOString b /\
   after (getDateRange env') = toISOString a') /\
  a = MakeDate (today - 1) (MakeTime 3 45 0 0) - offsetAfter /\
  b = MakeDate today (MakeTime 3 0 0 0) - offsetBefore /\
  b - a = 23 * msPerHour + 15 * msPerMinute - (offsetBefore - offsetAfter) /\
  a' - b = 45 * msPerMinute - (offsetNext - offsetBefore).
Proof.
  intros z today offsetAfter offsetBefore offsetNext a b a' Hk Hk' Hz Hday.
  rewrite !getDateRange_boundaries. cbn [after before].
  split; [done|].
  destruct (getDateRange_instants env Hk) as [Hb Ha].
  destruct (getDateRange_instants env' Hk') as [_ Ha'].
  cbv zeta in Ha, Hb, Ha'. rewrite Hz in Ha'. fold z in Ha, Hb, Ha'.
  rewrite Hday in Ha'. fold today in Ha, Hb.
  replace (today + 1 - 1) with today in Ha' by lia.
  subst a b a'. rewrite Ha, Hb, Ha'.
  subst offsetAfter offsetBefore offsetNext.
  unfold UTC, MakeDate, MakeTime, msPerDay, msPerHour, msPerMinute,
    msPerSecond.
  repeat split; lia.
Qed.

Lemma window_length_and_gap_witness :
  beforeInstant springForward - afterInstant springForward =
    22 * msPerHour + 15 * msPerMinute /\
  afterInstant (nextDay springForward) - beforeInstant springForward =
    45 * msPerMinute.
Proof.
  pose proof (window_length_and_gap springForward (nextDay springForward))
    as H.
  cbv zeta in H.
  destruct H as (_ & _ & _ & Hlen & Hgap).
  - vm_compute; reflexivity.
  - vm_compute; reflexivity.
  - reflexivity.
  - vm_compute; reflexivity.
  - rewrite Hlen, Hgap. split; vm_compute; reflexivity.
Defined.

(** X16: the label is the date in UTC of 03:45 local time of yesterday, so
    it goes by the offset the zone gives that local time: above -20:15 and
    at most +03:45, the label is the local date of yesterday at every clock
    reading; further east, up to +27:45, it is the date of the day before
    yesterday. *)
Theorem label_by_offset (env : Env) :
  let z := zone env in
  let today := Day (LocalTime z (clock env)) in
  let offset := z (MakeDate (today - 1) (MakeTime 3 45 0 0)) false in
  keepsWindowDays env = true ->
  (-1215 * msPerMinute < offset <= 225 * msPerMinute ->
   dateStr (getDateRange env) = dayText (today - 1)) /\
  (225 * msPerMinute < offset <= 1665 * msPerMinute ->
   dateStr (getDateRange env) = dayText (today - 2)).
Proof.
  intros z today offset Hk. rewrite getDateRange_boundaries. cbn [dateStr].
  rewrite isoDate_dayText.
  destruct (getDateRange_instants env Hk) as [_ ->]. fold z today.
  unfold UTC. fold offset. clearbody offset.
  split; intros Hoff; f_equal;
    unfold Day, MakeDate, MakeTime, msPerDay, msPerHour, msPerMinute,
      msPerSecond in *; symmetry.
  - apply Z.div_unique with (13500000 - offset); lia.
  - apply Z.div_unique with (13500000 + 86400000 - offset); lia.
Qed.

Lemma label_by_offset_witness :
  dateStr (getDateRange tehranChange) =
    dayText (Day (LocalTime asiaTehran (clock tehranChange)) - 1) /\
  dateStr (getDateRange (nextDay tehranChange)) =
    dayText (Day (LocalTime asiaTehran (clock (nextDay tehranChange))) - 2) /\
  dateStr (getDateRange (reference 540)) =
    dayText (Day (LocalTime (fixedZone 540) (clock (reference 540))) - 2).
Proof.
  split; [|split].
  - apply (proj1 (label_by_offset tehranChange ltac:(vm_compute; reflexivity))).
    vm_compute. split; [reflexivity | discriminate].
  - apply (proj2 (label_by_offset (nextDay tehranChange)
                    ltac:(vm_compute; reflexivity))).
    vm_compute. split; [reflexivity | discriminate].
  - apply (proj2 (label_by_offset (reference 540) ltac:(vm_compute; reflexivity))).
    vm_compute. split; [reflexivity | discriminate].
Defined.

(** X17: between 1970 and 9999 two instants get the same date text from
    [toISOString().split('T')[0]] exactly when they fall on the same UTC
    day: the transcripts of different days go to different directories. *)
Theorem date_text_injective (t1 t2 : Z) :
  fourDigitYears t1 -> fourDigitYears t2 ->
  (datePart (toISOString t1) = datePart (toISOString t2) <-> Day t1 = Day t2).
Proof.
  intros H1 H2. rewrite !datePart_toISOString. split.
  - by apply isoDate_inj.
  - apply isoDate_Day.
Qed.

Lemma date_text_injective_witness :
  datePart (toISOString 1710496800000) = datePart (toISOString 1710496800001) <->
  Day 1710496800000 = Day 1710496800001.
Proof.
  apply (date_text_injective 1710496800000 1710496800001);
    unfold fourDigitYears; lia.
Defined.

(** ** From the collector to the summarizer *)

Lemma truthy_isoDate t : truthy (isoDate t) = true.
Proof.
  unfold isoDate. destruct (isoYear (YearFromTime t)); done.
Qed.

Lemma getTargetDate_label (env env' : Env) :
  getTargetDate (Some (dateStr (getDateRange env))) env' =
  dateStr (getDateRange env).
Proof.
  rewrite getDateRange_boundaries. cbn [dateStr]. unfold getTargetDate, orElse.
  by rewrite truthy_isoDate.
Qed.

Lemma collectorMain_dirs (httpGet : jsstring -> HttpOutcome) (env : Env)
    (day : jsstring) :
  day <> dateStr (getDateRange env) ->
  collectorMain httpGet env ∅ !! day = None.
Proof.
  intros Hd. unfold collectorMain. by rewrite lookup_insert_ne.
Qed.

(** X18: run without argument on the local day of the collection, at or
    after 03:00 local time on a host whose offset from UTC, at that time
    and at 03:45 of the day before, is above -20:15 and at most +03:00, the
    summarizer looks for the logs of the UTC date of its clock, which is
    not the label the collector wrote under: after a collection into an
    empty tree it finds no logs and writes nothing. *)
Theorem summarizer_default_misses_collection
    (lowerNonAscii : jsstring -> nat -> jsstring)
    (httpGet : jsstring -> HttpOutcome) (env env' : Env)
    (summaries : gmap jsstring (gmap jsstring jsstring)) :
  let z := zone env in
  let today := Day (LocalTime z (clock env)) in
  let offsetAfter := z (MakeDate (today - 1) (MakeTime 3 45 0 0)) false in
  let offsetNow := z (clock env') true in
  keepsWindowDays env = true ->
  -1215 * msPerMinute < offsetAfter <= 180 * msPerMinute ->
  -1215 * msPerMinute < offsetNow <= 180 * msPerMinute ->
  Day (LocalTime z (clock env')) = today ->
  3 * msPerHour <= TimeWithinDay (LocalTime z (clock env')) ->
  2 * msPerDay <= clock env' -> fourDigitYears (clock env') ->
  getTargetDate None env' <> dateStr (getDateRange env) /\
  summarizerMain lowerNonAscii None env' (collectorMain httpGet env ∅)
    summaries = summaries.
Proof.
  intros z today offsetAfter offsetNow Hk Hoa Hon Hday Htod Hlow Hhigh.
  assert (getTargetDate None env' <> dateStr (getDateRange env)) as Hne.
  { rewrite getDateRange_boundaries. cbn [dateStr].
    unfold getTargetDate, orElse. rewrite datePart_toISOString.
    destruct (getDateRange_instants env Hk) as [_ ->]. fold z today.
    unfold UTC. fold offsetAfter.
    assert (today * msPerDay <= LocalTime z (clock env')
            < today * msPerDay + msPerDay) as Hl.
    { rewrite <- Hday. unfold Day, msPerDay. Z.div_mod_to_equations; lia. }
    assert (TimeWithinDay (LocalTime z (clock env')) =
            LocalTime z (clock env') - today * msPerDay) as Ht.
    { rewrite <- Hday. unfold TimeWithinDay, Day, msPerDay.
      Z.div_mod_to_equations; lia. }
    rewrite Ht in Htod. unfold LocalTime in Hl, Htod. fold offsetNow in Hl, Htod.
    clearbody today offsetAfter offsetNow.
    intros Heq. apply isoDate_inj in Heq; [| done |].
    - revert Heq.
      unfold Day, MakeDate, MakeTime, msPerDay, msPerHour,
        msPerMinute, msPerSecond in *.
      Z.div_mod_to_equations; lia.
    - unfold fourDigitYears, MakeDate, MakeTime, msPerDay,
        msPerHour, msPerMinute, msPerSecond in *. lia. }
  split; [done|].
  unfold summarizerMain. by rewrite collectorMain_dirs.
Qed.

Lemma summarizer_default_misses_collection_witness :
  getTargetDate None warsaw <> dateStr (getDateRange warsaw) /\
  summarizerMain keepNonAscii None warsaw (collectorMain busyApi warsaw ∅) ∅ = ∅.
Proof.
  apply (summarizer_default_misses_collection keepNonAscii busyApi warsaw
           warsaw ∅);
    first [ reflexivity | unfold fourDigitYears; vm_compute; split; congruence
          | vm_compute; split; congruence | vm_compute; congruence ].
Defined.

End Days.

Lemma endsWith_app (p s : jsstring) : endsWith p (s ++ p) = true.
Proof.
  unfold endsWith. rewrite rev_app_distr.
  induction (rev p) as [|a l IH]; [done|].
  cbn [app startsWith]. by rewrite N.eqb_refl, IH.
Qed.

Lemma CHANNELS_names (channel : jsstring) :
  In channel CHANNELS ->
  singleLine channel = true /\
  replace (u ".md") [] (channel ++ u ".md") = channel.
Proof.
  intros [<-|[<-|[<-|[<-|[<-|[<-|[]]]]]]]; split; vm_compute; reflexivity.
Qed.



(** ** The request *)

Lemma encodeURIComponent_unreserved (s : jsstring) :
  forallb unreserved s = true -> encodeURIComponent s = s.
Proof.
  induction s as [|c s IH]; [done|]. cbn [forallb].
  intros [Hc Hs]%andb_prop. unfold encodeURIComponent. cbn [flat_map].
  rewrite Hc. cbn [app]. f_equal. by apply IH.
Qed.

Lemma unreserved_digit z : unreserved (digit (z mod 10)) = true.
Proof.
  unfold unreserved. rewrite isDigit_digit.
  by rewrite orb_true_r.
Qed.

Lemma unreserved_isoDate t :
  fourDigitYears t -> forallb unreserved (isoDate t) = true.
Proof.
  intros Ht%fourDigitYears_year. unfold isoDate, isoYear.
  assert ((0 <=? YearFromTime t)%Z && (YearFromTime t <=? 9999)%Z = true)
    as -> by lia.
  unfold pad4, pad3, pad2. change (u "-") with [45]. cbn [app forallb].
  rewrite !unreserved_digit. reflexivity.
Qed.

(** X20: the request of the collector carries dates only: for a channel it
    asks the API for the messages from the label of the collection to the
    UTC date of the [before] boundary, both sent as they are, and what
    becomes of the fetch is decided by the answer to that one URL. *)
Theorem collector_request (httpGet : jsstring -> HttpOutcome) (env : Env)
    (channel : jsstring) :
  let r := getDateRange env in
  fourDigitYears (afterInstant env) ->
  fourDigitYears (beforeInstant env) ->
  fetchMessages httpGet channel (after r) (before r) =
  settle (httpGet (requestUrl channel (dateStr r)
                     (datePart (before r)))).
Proof.
  intros r Ha Hb. subst r. rewrite getDateRange_boundaries.
  cbn [after before dateStr]. unfold fetchMessages, settle, requestUrl.
  rewrite !datePart_toISOString.
  by rewrite !encodeURIComponent_unreserved by by apply unreserved_isoDate.
Qed.

Lemma collector_request_witness :
  fetchMessages busyApi (u "general") (after (getDateRange warsaw))
    (before (getDateRange warsaw)) =
  settle (busyApi (requestUrl (u "general") (dateStr (getDateRange warsaw))
                     (datePart (before (getDateRange warsaw))))).
Proof.
  apply (collector_request busyApi warsaw (u "general"));
    unfold fourDigitYears; vm_compute; split; first [discriminate | reflexivity].
Defined.
